(** * generic-api-scaffold: event bus, periodic collector, InfluxDB consumer

    A shallow embedding of the Go packages [bus] (EventBus), [infra]
    (InfluxRepo) and [app] (Collector), with the properties of the
    event-distribution and ingestion pipeline proved over it.

    Conventions of the embedding
    - a Go pointer receiver that is mutated in place ([*EventBus], the fx
      lifecycle, the zap logger's sink) is a field of the process [State],
      threaded through a small state monad [M];
    - [go f(x)] adds a [Goroutine] to the scheduler pool of the [State]; it
      runs nothing;
    - [log.Fatal] writes its entry and ends the process ([Exit 1]); calling
      a method on a nil interface value ends it with [Panic];
    - the third-party client library (influxdb1-client), [time.ParseDuration]
      and the store behind the client are not part of the repository: they
      are the fields of a [Library] record every definition is parametric
      in;
    - time is an integer count of nanoseconds, as Go's [time.Duration]. *)

From Stdlib Require Import ZArith PrimFloat Ascii String.
From stdpp Require Import gmap strings list fin_maps pretty.

Local Open Scope Z_scope.

(** Go's [float64]; the code only moves such values around. *)
Definition float64 : Type := PrimFloat.float.

(** Go's [error], kept as its message. *)
Definition error : Type := string.

(** [*zap.Logger]: a handle; what is logged goes to the sink in [State]. *)
Inductive Logger : Type := ZapLogger.

(* ===================================================================== *)
(** ** package bus *)
(* ===================================================================== *)

Module bus.

(** [type DataCollectedEvent struct { DeviceID string; Values map[string]float64 }] *)
Record DataCollectedEvent : Type := {
  DeviceID : string;
  Values : gmap string float64
}.

Section EventBus.
(** [H] stands for the type [func(DataCollectedEvent)] of subscribers. *)
Context {H : Type}.

(** [type EventBus struct { log *zap.Logger; subscribers []func(DataCollectedEvent) }] *)
Record EventBus : Type := {
  log : Logger;
  subscribers : list H
}.

(** The statement [go fn(arg)]: a call that has been handed to the
    scheduler. *)
Record Goroutine : Type := go {
  go_fn : H;
  go_arg : DataCollectedEvent
}.

(** [func NewEventBus(log *zap.Logger) *EventBus] *)
Definition NewEventBus (l : Logger) : EventBus :=
  {| log := l; subscribers := [] |}.

(** [func (b *EventBus) Subscribe(fn func(DataCollectedEvent))]:
    [b.subscribers = append(b.subscribers, fn)]. *)
Definition Subscribe (b : EventBus) (fn : H) : EventBus :=
  {| log := log b; subscribers := subscribers b ++ [fn] |}.

(** [func (b *EventBus) Publish(e DataCollectedEvent)]:
    [for _, sub := range b.subscribers { go sub(e) }].  The bus is
    only read; the result is the scheduler pool after the loop. *)
Definition Publish (b : EventBus) (e : DataCollectedEvent)
    (pool : list Goroutine) : list Goroutine :=
  fold_left (fun pool sub => pool ++ [go sub e]) (subscribers b) pool.

(** The methods a holder of the bus can call on it. *)
Inductive BusOp : Type :=
| OpSubscribe (fn : H)
| OpPublish (e : DataCollectedEvent).

Definition apply_op (st : EventBus * list Goroutine) (op : BusOp)
    : EventBus * list Goroutine :=
  match op with
  | OpSubscribe fn => (Subscribe st.1 fn, st.2)
  | OpPublish e => (st.1, Publish st.1 e st.2)
  end.

Definition apply_ops (ops : list BusOp) (st : EventBus * list Goroutine)
    : EventBus * list Goroutine :=
  fold_left apply_op ops st.

(** The handlers a sequence of calls registers, in call order. *)
Fixpoint subscribed (ops : list BusOp) : list H :=
  match ops with
  | [] => []
  | OpSubscribe fn :: ops => fn :: subscribed ops
  | OpPublish _ :: ops => subscribed ops
  end.

End EventBus.

Arguments EventBus : clear implicits.
Arguments Goroutine : clear implicits.
Arguments BusOp : clear implicits.

End bus.

(* ===================================================================== *)
(** ** What the core talks to: client library, logger, process state *)
(* ===================================================================== *)

(** [interface{}]: the dynamic types a field of a point can carry. *)
Inductive iface : Type :=
| IfFloat64 (v : float64)
| IfInt64 (v : Z)
| IfString (v : string)
| IfBool (v : bool).

(** [client.HTTPConfig], with the four fields the code fills in. *)
Record HTTPConfig : Type := {
  Addr : string;
  Username : string;
  Password : string;
  Timeout : Z
}.

(** [client.BatchPointsConfig], with the two fields the code fills in. *)
Record BatchPointsConfig : Type := {
  Database : string;
  Precision : string
}.

(** [client.Client]: the handle the library builds from a configuration. *)
Record Client : Type := { client_conf : HTTPConfig }.

(** Modelled from the spec: the point type of the client library
    ([*client.Point]) is not in src/.  Section 3 gives the persisted point
    as measurement, tags, fields and timestamp: the four arguments of
    [client.NewPoint], which the library packs once it has accepted them. *)
Record Point : Type := {
  pt_name : string;
  pt_tags : gmap string string;
  pt_fields : gmap string iface;
  pt_time : Z
}.

(** Modelled from the spec: the batch type of the client library
    ([client.BatchPoints]) is not in src/.  Section 4.3: the point is
    submitted through the protocol's batch submission; a batch is made for
    a database and a precision and holds the points added to it. *)
Record BatchPoints : Type := {
  bp_database : string;
  bp_precision : string;
  bp_points : list Point
}.

(** [bp.AddPoint(pt)] on a batch that is not nil. *)
Definition AddPoint (bp : BatchPoints) (pt : Point) : BatchPoints :=
  {| bp_database := bp_database bp;
     bp_precision := bp_precision bp;
     bp_points := bp_points bp ++ [pt] |}.

(** The code outside the repository, as the repository calls it.  A Go
    result [(T, error)] whose error the caller checks first is a sum;
    [NewBatchPoints], whose error the caller drops, keeps both components
    ([None] is Go's nil). *)
Record Library : Type := {
  (** [time.ParseDuration(s)] *)
  ParseDuration : string -> Z + error;
  (** [client.NewHTTPClient(conf)] *)
  NewHTTPClient : HTTPConfig -> Client + error;
  (** [client.NewBatchPoints(conf)] *)
  NewBatchPoints : BatchPointsConfig -> option BatchPoints * option error;
  (** the check [client.NewPoint(name, tags, fields, t)] makes on its
      arguments: [Some err] when it refuses them *)
  NewPoint_check : string -> gmap string string -> gmap string iface -> Z -> option error;
  (** [c.Write(bp)] started at a given time: its error, if any, and how
      long the call took *)
  Write : Client -> BatchPoints -> Z -> option error * N
}.

(** [client.NewPoint(name, tags, fields, t)] *)
Definition NewPoint (lib : Library) (name : string) (tags : gmap string string)
    (fields : gmap string iface) (t : Z) : Point + error :=
  match NewPoint_check lib name tags fields t with
  | Some err => inr err
  | None => inl {| pt_name := name; pt_tags := tags; pt_fields := fields; pt_time := t |}
  end.

(** zap's levels, as far as the code uses them. *)
Inductive Level : Type := InfoLevel | ErrorLevel | FatalLevel.

(** One structured log entry: level, message, fields
    ([zap.Error(err)] is the field ["error"], [zap.String(k, v)] the field [k]). *)
Record LogEntry : Type := {
  lvl : Level;
  msg : string;
  zfields : list (string * string)
}.

Definition zap_Error (err : error) : string * string := ("error", err).
Definition zap_String (k v : string) : string * string := (k, v).

(** [type InfluxRepo struct { log *zap.Logger; client client.Client }] *)
Record InfluxRepo : Type := {
  repo_log : Logger;
  client : Client
}.

(** The one subscriber closure of the repository, with the variables it
    captures: [repo], [influxDatabase] and [influxPrecision] of
    [NewInfluxRepo]. *)
Inductive Subscriber : Type :=
| InfluxSubscriber (repo : InfluxRepo) (influxDatabase influxPrecision : string).

(** [type Collector struct { log *zap.Logger; bus *bus.EventBus; repo *infra.InfluxRepo }];
    the bus it points to is the one of the [State]. *)
Record Collector : Type := {
  c_log : Logger;
  c_repo : InfluxRepo
}.

(** The [fx.Hook]s the core appends to the lifecycle. *)
Inductive Hook : Type :=
| RepoHook (repo : InfluxRepo)
| CollectorHook (c : Collector).

(** One call of [c.Write(bp)] as the store client saw it. *)
Record WriteCall : Type := {
  wc_client : Client;
  wc_batch : BatchPoints;
  wc_start : Z;
  wc_end : Z;
  wc_err : option error
}.

(** Modelled from the spec: the ticking mechanism ([*time.Ticker] of the Go
    runtime) is not in src/.  Section 4.2 and the glossary: a tick is one
    firing of the fixed-interval timer, and the ticking resource is released
    when the loop exits.  The record holds the period, the next instant the
    timer fires, whether a tick waits in the channel [C] (which keeps one
    tick at most), and whether [Stop] was called. *)
Record Ticker : Type := {
  period : Z;
  next_fire : Z;
  C : bool;
  stopped : bool
}.

(** Where the goroutine running [Collector.Start] is. *)
Inductive LoopStatus : Type := NotStarted | InSelect | Returned.

(** The process.  [published] is a history variable: the calls of
    [Publish] made so far with the time of each; no code reads it. *)
Record State : Type := {
  clock : Z;
  environ : gmap string string;
  logs : list LogEntry;
  eb : bus.EventBus Subscriber;
  goroutines : list (bus.Goroutine Subscriber);
  lifecycle : list Hook;
  store : list WriteCall;
  closed : bool;
  ctx_done : bool;
  ticker : option Ticker;
  collector : LoopStatus;
  published : list (Z * bus.DataCollectedEvent)
}.

Definition set_clock (f : Z -> Z) (s : State) : State :=
  {| clock := f (clock s); environ := environ s; logs := logs s; eb := eb s;
     goroutines := goroutines s; lifecycle := lifecycle s; store := store s;
     closed := closed s; ctx_done := ctx_done s; ticker := ticker s;
     collector := collector s; published := published s |}.

Definition set_logs (f : list LogEntry -> list LogEntry) (s : State) : State :=
  {| clock := clock s; environ := environ s; logs := f (logs s); eb := eb s;
     goroutines := goroutines s; lifecycle := lifecycle s; store := store s;
     closed := closed s; ctx_done := ctx_done s; ticker := ticker s;
     collector := collector s; published := published s |}.

Definition set_eb (f : bus.EventBus Subscriber -> bus.EventBus Subscriber)
    (s : State) : State :=
  {| clock := clock s; environ := environ s; logs := logs s; eb := f (eb s);
     goroutines := goroutines s; lifecycle := lifecycle s; store := store s;
     closed := closed s; ctx_done := ctx_done s; ticker := ticker s;
     collector := collector s; published := published s |}.

Definition set_goroutines
    (f : list (bus.Goroutine Subscriber) -> list (bus.Goroutine Subscriber))
    (s : State) : State :=
  {| clock := clock s; environ := environ s; logs := logs s; eb := eb s;
     goroutines := f (goroutines s); lifecycle := lifecycle s; store := store s;
     closed := closed s; ctx_done := ctx_done s; ticker := ticker s;
     collector := collector s; published := published s |}.

Definition set_lifecycle (f : list Hook -> list Hook) (s : State) : State :=
  {| clock := clock s; environ := environ s; logs := logs s; eb := eb s;
     goroutines := goroutines s; lifecycle := f (lifecycle s); store := store s;
     closed := closed s; ctx_done := ctx_done s; ticker := ticker s;
     collector := collector s; published := published s |}.

Definition set_store (f : list WriteCall -> list WriteCall) (s : State) : State :=
  {| clock := clock s; environ := environ s; logs := logs s; eb := eb s;
     goroutines := goroutines s; lifecycle := lifecycle s; store := f (store s);
     closed := closed s; ctx_done := ctx_done s; ticker := ticker s;
     collector := collector s; published := published s |}.

Definition set_closed (b : bool) (s : State) : State :=
  {| clock := clock s; environ := environ s; logs := logs s; eb := eb s;
     goroutines := goroutines s; lifecycle := lifecycle s; store := store s;
     closed := b; ctx_done := ctx_done s; ticker := ticker s;
     collector := collector s; published := published s |}.

Definition set_ctx_done (b : bool) (s : State) : State :=
  {| clock := clock s; environ := environ s; logs := logs s; eb := eb s;
     goroutines := goroutines s; lifecycle := lifecycle s; store := store s;
     closed := closed s; ctx_done := b; ticker := ticker s;
     collector := collector s; published := published s |}.

Definition set_ticker (f : option Ticker -> option Ticker) (s : State) : State :=
  {| clock := clock s; environ := environ s; logs := logs s; eb := eb s;
     goroutines := goroutines s; lifecycle := lifecycle s; store := store s;
     closed := closed s; ctx_done := ctx_done s; ticker := f (ticker s);
     collector := collector s; published := published s |}.

Definition set_collector (st : LoopStatus) (s : State) : State :=
  {| clock := clock s; environ := environ s; logs := logs s; eb := eb s;
     goroutines := goroutines s; lifecycle := lifecycle s; store := store s;
     closed := closed s; ctx_done := ctx_done s; ticker := ticker s;
     collector := st; published := published s |}.

Definition set_published
    (f : list (Z * bus.DataCollectedEvent) -> list (Z * bus.DataCollectedEvent))
    (s : State) : State :=
  {| clock := clock s; environ := environ s; logs := logs s; eb := eb s;
     goroutines := goroutines s; lifecycle := lifecycle s; store := store s;
     closed := closed s; ctx_done := ctx_done s; ticker := ticker s;
     collector := collector s; published := f (published s) |}.

(** *** The monad of the process *)

(** How a call ends: it returns, it panics, or the process exits. *)
Inductive Res (A : Type) : Type :=
| Ret (a : A)
| Panic (why : string)
| Exit (code : Z).
Arguments Ret {A} a.
Arguments Panic {A} why.
Arguments Exit {A} code.

Definition M (A : Type) : Type := State -> Res A * State.

#[export] Instance M_ret : MRet M := fun A a s => (Ret a, s).

#[export] Instance M_bind : MBind M := fun A B k m s =>
  match m s with
  | (Ret a, s') => k a s'
  | (Panic why, s') => (Panic why, s')
  | (Exit code, s') => (Exit code, s')
  end.

Definition modify (f : State -> State) : M unit := fun s => (Ret tt, f s).
Definition gets {A} (f : State -> A) : M A := fun s => (Ret (f s), s).
Definition panic {A} (why : string) : M A := fun s => (Panic why, s).

(** [os.Getenv(key)]: the empty string when the variable is not set. *)
Definition Getenv (key : string) : M string :=
  gets (fun s => default "" (environ s !! key)).

(** [time.Now()] *)
Definition Now : M Z := gets clock.

(** [log.Info], [log.Error]: one more entry in the sink. *)
Definition log_write (l : Level) (m : string) (fs : list (string * string)) : M unit :=
  modify (set_logs (fun es => es ++ [{| lvl := l; msg := m; zfields := fs |}])).

Definition Info (_ : Logger) := log_write InfoLevel.
Definition Error (_ : Logger) := log_write ErrorLevel.

(** Modelled from the spec: zap's [log.Fatal] is not in src/.  Section 7:
    a configuration failure terminates the process with a diagnostic
    message; the entry is written, then the process exits with status 1. *)
Definition Fatal {A} (_ : Logger) (m : string) (fs : list (string * string)) : M A :=
  fun s => (Exit 1, set_logs (fun es => es ++ [{| lvl := FatalLevel; msg := m; zfields := fs |}]) s).

(** [eb.Subscribe(fn)] on the bus of the process. *)
Definition Subscribe (fn : Subscriber) : M unit :=
  modify (set_eb (fun b => bus.Subscribe b fn)).

(** [eb.Publish(e)] on the bus of the process. *)
Definition Publish (e : bus.DataCollectedEvent) : M unit :=
  fun s =>
    (Ret tt,
     set_published (fun h => h ++ [(clock s, e)])
       (set_goroutines (bus.Publish (eb s) e) s)).

(** [lc.Append(hook)] *)
Definition Append (h : Hook) : M unit :=
  modify (set_lifecycle (fun hs => hs ++ [h])).

(* ===================================================================== *)
(** ** package infra: InfluxRepo *)
(* ===================================================================== *)

Module infra.
Section WithLibrary.
Variable lib : Library.

(** [c.Write(bp)]: the store client sees the call, the call takes its
    time, and its error comes back. *)
Definition client_Write (c : Client) (bp : BatchPoints) : M (option error) :=
  fun s =>
    let '(err, took) := Write lib c bp (clock s) in
    let finish := clock s + Z.of_N took in
    (Ret err,
     set_store (fun ws => ws ++ [{| wc_client := c; wc_batch := bp;
                                    wc_start := clock s; wc_end := finish;
                                    wc_err := err |}])
       (set_clock (fun _ => finish) s)).

(** [fields := make(map[string]interface{}, len(e.Values));
     for k, v := range e.Values { fields[k] = v }] *)
Definition copy_fields (values : gmap string float64) : gmap string iface :=
  map_fold (fun k v fields => <[k := IfFloat64 v]> fields) ∅ values.

(** The closure [func(e bus.DataCollectedEvent) { ... }] handed to
    [eb.Subscribe] by [NewInfluxRepo]. *)
Definition subscriber (repo : InfluxRepo) (influxDatabase influxPrecision : string)
    (e : bus.DataCollectedEvent) : M unit :=
  (* bp, _ := client.NewBatchPoints(...) *)
  let bp := (NewBatchPoints lib {| Database := influxDatabase;
                                   Precision := influxPrecision |}).1 in
  let tags : gmap string string := {[ "device" := bus.DeviceID e ]} in
  let fields := copy_fields (bus.Values e) in
  now ← Now;
  match NewPoint lib "device_data" tags fields now with
  | inr err =>
      Error (repo_log repo) "influx point create failed" [zap_Error err]
  | inl pt =>
      (* bp.AddPoint(pt): a method call on an interface value *)
      match bp with
      | None => panic "invalid memory address or nil pointer dereference"
      | Some bp =>
          let bp := AddPoint bp pt in
          err ← client_Write (client repo) bp;
          match err with
          | Some err =>
              Error (repo_log repo) "influx write failed" [zap_Error err]
          | None =>
              Info (repo_log repo) "influx write success"
                [zap_String "device" (bus.DeviceID e)]
          end
      end
  end.

(** Calling a registered subscriber. *)
Definition call (fn : Subscriber) (e : bus.DataCollectedEvent) : M unit :=
  match fn with
  | InfluxSubscriber repo influxDatabase influxPrecision =>
      subscriber repo influxDatabase influxPrecision e
  end.

(** [if v == "" { v = dflt }] *)
Definition or_default (v dflt : string) : string :=
  if decide (v = "") then dflt else v.

(** [func NewInfluxRepo(lc fx.Lifecycle, log *zap.Logger, eb *bus.EventBus) *InfluxRepo];
    [lc] and [eb] are the lifecycle and the bus of the process. *)
Definition NewInfluxRepo (log : Logger) : M InfluxRepo :=
  influxURL ← Getenv "APP_INFLUX_URL";
  influxUsername ← Getenv "APP_INFLUX_USERNAME";
  influxPassword ← Getenv "APP_INFLUX_PASSWORD";
  influxDatabase ← Getenv "APP_INFLUX_DATABASE";
  influxPrecision ← Getenv "APP_INFLUX_PRECISION";
  influxTimeout ← Getenv "APP_INFLUX_TIMEOUT";
  let influxURL := or_default influxURL "http://localhost:8086" in
  let influxUsername := or_default influxUsername "admin" in
  let influxPassword := or_default influxPassword "" in
  (if decide (influxDatabase = "")
   then Fatal log "influx database is required" []
   else mret tt);;
  let influxPrecision := or_default influxPrecision "s" in
  let influxTimeout := or_default influxTimeout "5s" in
  match ParseDuration lib influxTimeout with
  | inr err => Fatal log "failed to parse influx timeout" [zap_Error err]
  | inl timeout =>
      match NewHTTPClient lib {| Addr := influxURL; Username := influxUsername;
                                 Password := influxPassword; Timeout := timeout |} with
      | inr err => Fatal log "failed to connect influxdb" [zap_Error err]
      | inl c =>
          let repo := {| repo_log := log; client := c |} in
          Subscribe (InfluxSubscriber repo influxDatabase influxPrecision);;
          Append (RepoHook repo);;
          mret repo
      end
  end.

(** The [OnStop] of the hook [NewInfluxRepo] appends: [repo.client.Close()]. *)
Definition repo_OnStop (repo : InfluxRepo) : M unit :=
  modify (set_closed true).

End WithLibrary.
End infra.

(* ===================================================================== *)
(** ** package app: Collector *)
(* ===================================================================== *)

Module app.

(** [time.Second], in nanoseconds. *)
Definition Second : Z := 1000000000.

(** Modelled from the spec: the ticking mechanism when the clock reaches
    [now] (section 4.2: tick delivery does not wait for the loop).  If the
    ticker is running and its next instant has come, a tick is put in [C]
    (one at most is kept) and the next instant moves past [now] by whole
    periods. *)
Definition fire (now : Z) (t : Ticker) : Ticker :=
  if stopped t then t
  else if decide (next_fire t <= now)
  then {| period := period t;
          next_fire := next_fire t + period t * ((now - next_fire t) / period t + 1);
          C := true;
          stopped := false |}
  else t.

(** [time.NewTicker(d)]: panics unless [d] is positive; the first tick
    is due [d] from now. *)
Definition NewTicker (d : Z) : M unit :=
  if decide (0 < d)
  then modify (fun s => set_ticker (fun _ => Some {| period := d;
                                                     next_fire := clock s + d;
                                                     C := false;
                                                     stopped := false |}) s)
  else panic "non-positive interval for NewTicker".

(** [ticker.Stop()] *)
Definition ticker_Stop : M unit :=
  modify (set_ticker (fmap (fun t => {| period := period t; next_fire := next_fire t;
                                        C := C t; stopped := true |}))).

(** [<-ticker.C]: the waiting tick is taken. *)
Definition ticker_recv : M unit :=
  modify (set_ticker (fmap (fun t => {| period := period t; next_fire := next_fire t;
                                        C := false; stopped := stopped t |}))).

(** The two cases of the [select] in [Collector.Start]. *)
Inductive Case : Type := CaseDone | CaseTick.

(** The event [Collector.Start] builds on a tick. *)
Definition sample : bus.DataCollectedEvent :=
  {| bus.DeviceID := "A1"; bus.Values := {[ "temp" := 23.5%float ]} |}.

(** [func NewCollector(log *zap.Logger, b *bus.EventBus, r *infra.InfluxRepo) *Collector] *)
Definition NewCollector (log : Logger) (r : InfluxRepo) : Collector :=
  {| c_log := log; c_repo := r |}.

Section Start.
Variable c : Collector.

(** [func (c *Collector) Start(ctx context.Context)] up to its loop:
    [ticker := time.NewTicker(3 * time.Second); defer ticker.Stop()]. *)
Definition Start_enter : M unit :=
  NewTicker (3 * Second);;
  modify (set_collector InSelect).

(** One round of [for { select { ... } }], given the case the [select]
    takes.  [return] runs the deferred [ticker.Stop()]. *)
Definition Start_round (sel : Case) : M unit :=
  match sel with
  | CaseDone =>
      Info (c_log c) "collector exit" [];;
      ticker_Stop;;
      modify (set_collector Returned)
  | CaseTick =>
      ticker_recv;;
      Info (c_log c) "collecting data..." [];;
      let data : gmap string float64 := {[ "temp" := 23.5%float ]} in
      Publish {| bus.DeviceID := "A1"; bus.Values := data |}
  end.

(** [func registerHandlers(lc fx.Lifecycle, c *Collector)]: the hook whose
    [OnStart] is [go c.Start(ctx)] and whose [OnStop] logs. *)
Definition registerHandlers : M unit := Append (CollectorHook c).

(** The [OnStop] of that hook: [c.log.Info("collector stopped")]. *)
Definition collector_OnStop : M unit := Info (c_log c) "collector stopped" [].

(** Whether a case of the [select] can be taken: the loop is waiting in
    it, and the channel of the case has something to receive. *)
Definition ready (sel : Case) (s : State) : bool :=
  match collector s, sel with
  | InSelect, CaseDone => ctx_done s
  | InSelect, CaseTick => from_option C false (ticker s)
  | _, _ => false
  end.
End Start.

End app.

(* ===================================================================== *)
(** ** The running process *)
(* ===================================================================== *)

(** What can happen next: time passes, the context is cancelled, the
    collector's [select] takes a case, or the scheduler runs one of the
    goroutines [Publish] spawned (to its end). *)
Inductive Action : Type :=
| Elapse (d : N)
| Cancel
| Select (sel : app.Case)
| RunGoroutine (i : nat).

Section Process.
Variable lib : Library.
Variable c : Collector.

Definition elapse (d : N) (s : State) : State :=
  let now := clock s + Z.of_N d in
  set_ticker (fmap (app.fire now)) (set_clock (fun _ => now) s).

(** A step is [None] when the action cannot happen in [s], or when it
    ends the process (an unrecovered panic in a goroutine). *)
Definition step (a : Action) (s : State) : option State :=
  match a with
  | Elapse d => Some (elapse d s)
  | Cancel => Some (set_ctx_done true s)
  | Select sel =>
      if app.ready sel s
      then match app.Start_round c sel s with
           | (Ret _, s') => Some s'
           | _ => None
           end
      else None
  | RunGoroutine i =>
      match goroutines s !! i with
      | Some g =>
          match infra.call lib (bus.go_fn g) (bus.go_arg g)
                  (set_goroutines (delete i) s) with
          | (Ret _, s') => Some s'
          | _ => None
          end
      | None => None
      end
  end.

Fixpoint exec (acts : list Action) (s : State) : option State :=
  match acts with
  | [] => Some s
  | a :: acts =>
      match step a s with
      | Some s' => exec acts s'
      | None => None
      end
  end.

End Process.

(* ===================================================================== *)
(** ** package infra: the HTTP server *)
(* ===================================================================== *)

Module server.

(** [http.StatusOK], [http.StatusAccepted], [http.MethodGet], [http.MethodPost]. *)
Definition StatusOK : Z := 200.
Definition StatusAccepted : Z := 202.
Definition MethodGet : string := "GET".
Definition MethodPost : string := "POST".

(** The double quote, for the JSON bodies the handlers write. *)
Definition dquote : string := String "034"%char EmptyString.

(** The method values [s.handleHealth], [s.handlePing], [s.handleControl]. *)
Inductive Handler : Type := HandleHealth | HandlePing | HandleControl.

(** One [r.HandleFunc(path, handler).Methods(method)] of the router. *)
Record Route : Type := {
  route_path : string;
  route_methods : list string;
  route_handler : Handler
}.

(** [http.Server], with the fields [OnStart] fills in (durations in
    nanoseconds). *)
Record HTTPServer : Type := {
  srv_Addr : string;
  srv_Handler : list Route;
  ReadHeaderTimeout : Z;
  ReadTimeout : Z;
  WriteTimeout : Z;
  IdleTimeout : Z
}.

(** [type Server struct { log *zap.Logger; router *mux.Router; srv *http.Server; port int }];
    the router is the list of its routes in registration order, [srv] is
    nil until [OnStart]. *)
Record Server : Type := {
  log : Logger;
  router : list Route;
  srv : option HTTPServer;
  port : Z
}.

(** [*http.Request], as far as the handlers read it: [r.URL.Query()] is
    the parsed query, a [url.Values] (key to list of values). *)
Record Request : Type := {
  req_method : string;
  req_path : string;
  req_query : gmap string (list string)
}.

(** [url.Values.Get(key)]: the first value of the key, or the empty string. *)
Definition Get (q : gmap string (list string)) (key : string) : string :=
  match q !! key with
  | Some (v :: _) => v
  | _ => ""
  end.

(** What an [http.ResponseWriter] has been given: the status of the first
    [WriteHeader] and the bytes written, as a recorder keeps them. *)
Record Response : Type := {
  status : option Z;
  body : string
}.

Definition new_response : Response := {| status := None; body := "" |}.

(** [w.WriteHeader(code)]: only the first call sets the status. *)
Definition WriteHeader (code : Z) (w : Response) : Response :=
  match status w with
  | None => {| status := Some code; body := body w |}
  | Some _ => w
  end.

(** [w.Write(b)]: the status is 200 unless one was written before. *)
Definition rw_Write (b : string) (w : Response) : Response :=
  {| status := Some (default StatusOK (status w)); body := body w +:+ b |}.

(** The bodies [{"pong":true}] and [{"status":"queued"}]. *)
Definition pong_body : string :=
  "{" +:+ dquote +:+ "pong" +:+ dquote +:+ ":true}".

Definition queued_body : string :=
  "{" +:+ dquote +:+ "status" +:+ dquote +:+ ":" +:+ dquote +:+ "queued" +:+ dquote +:+ "}".

(** The routes [NewHTTPServer] registers, in its order. *)
Definition routes : list Route :=
  [ {| route_path := "/healthz"; route_methods := [MethodGet]; route_handler := HandleHealth |};
    {| route_path := "/api/ping"; route_methods := [MethodGet]; route_handler := HandlePing |};
    {| route_path := "/api/control"; route_methods := [MethodPost];
       route_handler := HandleControl |} ].

Section WithAtoi.
(** [strconv.Atoi], outside the repository. *)
Variable Atoi : string -> Z + error.

(** [func NewHTTPServer(log *zap.Logger) *Server] *)
Definition NewHTTPServer (log : Logger) : M Server :=
  portStr ← Getenv "APP_PORT";
  let portStr := if decide (portStr = "") then "8080" else portStr in
  match Atoi portStr with
  | inr err => Fatal log "Invalid port value, unable to convert to int" [zap_Error err]
  | inl port =>
      mret {| log := log; router := routes; srv := None; port := port |}
  end.

End WithAtoi.

(** [func (s *Server) handleHealth(w http.ResponseWriter, r *http.Request)] *)
Definition handleHealth (s : Server) (w : Response) (r : Request) : M Response :=
  mret (rw_Write "ok" (WriteHeader StatusOK w)).

(** [func (s *Server) handlePing(w http.ResponseWriter, r *http.Request)] *)
Definition handlePing (s : Server) (w : Response) (r : Request) : M Response :=
  mret (rw_Write pong_body (WriteHeader StatusOK w)).

(** [func (s *Server) handleControl(w http.ResponseWriter, r *http.Request)] *)
Definition handleControl (s : Server) (w : Response) (r : Request) : M Response :=
  let q := req_query r in
  let action := Get q "action" in
  let kw10 := Get q "kw10" in
  Info (log s) "control request received"
    [zap_String "action" action; zap_String "kw10" kw10];;
  mret (rw_Write queued_body (WriteHeader StatusAccepted w)).

(** Calling the handler a route names. *)
Definition serve (s : Server) (h : Handler) (w : Response) (r : Request) : M Response :=
  match h with
  | HandleHealth => handleHealth s w r
  | HandlePing => handlePing s w r
  | HandleControl => handleControl s w r
  end.


(** The [OnStart] of the hook [RegisterHooks] appends, up to its [go]
    statement: the server is set up for the address [":<port>"]
    ([fmt.Sprintf(":%d", s.port)]) and [nil] is returned.  The result is the
    server, the address handed to the goroutine, and the error. *)
Definition OnStart (s : Server) : Server * string * option error :=
  let addr := ":" +:+ pretty (port s) in
  let s' := {| log := log s; router := router s;
               srv := Some {| srv_Addr := addr;
                              srv_Handler := router s;
                              ReadHeaderTimeout := 5 * app.Second;
                              ReadTimeout := 10 * app.Second;
                              WriteTimeout := 10 * app.Second;
                              IdleTimeout := 60 * app.Second |};
               port := port s |} in
  (s', addr, None).



End server.

(* ===================================================================== *)
(** ** A concrete library and concrete processes, to run the code on *)
(* ===================================================================== *)

Module example.

Definition is_digit (a : ascii) : bool :=
  (48 <=? nat_of_ascii a)%nat && (nat_of_ascii a <=? 57)%nat.

(** The leading decimal digits of a string and what follows them. *)
Fixpoint leading_digits (s : string) (acc : option Z) : option Z * string :=
  match s with
  | String a rest =>
      if is_digit a
      then leading_digits rest
             (Some (10 * default 0 acc + (Z.of_nat (nat_of_ascii a) - 48)))
      else (acc, s)
  | EmptyString => (acc, s)
  end.

Definition unit_ns (u : string) : option Z :=
  if decide (u = "ns") then Some 1
  else if decide (u = "us") then Some 1000
  else if decide (u = "ms") then Some 1000000
  else if decide (u = "s") then Some 1000000000
  else if decide (u = "m") then Some 60000000000
  else if decide (u = "h") then Some 3600000000000
  else None.

(** Durations written as a whole number and one unit, such as ["5s"]. *)
Definition ParseDuration (s : string) : Z + error :=
  match leading_digits s None with
  | (Some n, u) =>
      match unit_ns u with
      | Some k => inl (n * k)
      | None => inr ("time: unknown unit in duration " +:+ s)
      end
  | (None, _) => inr ("time: invalid duration " +:+ s)
  end.

(** A client is built for an http or https address, without contacting it. *)
Definition NewHTTPClient (conf : HTTPConfig) : Client + error :=
  if String.prefix "http://" (Addr conf) || String.prefix "https://" (Addr conf)
  then inl {| client_conf := conf |}
  else inr "Unsupported protocol scheme".

(** A batch is refused, and nil handed back, when its precision is not a
    unit of time; an empty precision stands for nanoseconds. *)
Definition NewBatchPoints (conf : BatchPointsConfig)
    : option BatchPoints * option error :=
  let precision := if decide (Precision conf = "") then "ns" else Precision conf in
  match ParseDuration ("1" +:+ precision) with
  | inr err => (None, Some err)
  | inl _ => (Some {| bp_database := Database conf; bp_precision := precision;
                      bp_points := [] |}, None)
  end.

(** A point needs at least one field. *)
Definition NewPoint_check (name : string) (tags : gmap string string)
    (fields : gmap string iface) (t : Z) : option error :=
  if decide (size fields = 0%nat)
  then Some "Point without fields is unsupported"
  else None.

(** A store that answers every write after 2 ms when it is up, and
    refuses the connection after 1 ms when it is down. *)
Definition Write (up : bool) (c : Client) (bp : BatchPoints) (t : Z)
    : option error * N :=
  if up then (None, 2000000%N) else (Some "connection refused", 1000000%N).

Definition library (up : bool) : Library :=
  Build_Library ParseDuration NewHTTPClient NewBatchPoints NewPoint_check (Write up).

(** A process that has just created its logger and its bus, with the
    given environment. *)
Definition boot (env : gmap string string) : State :=
  {| clock := 0; environ := env; logs := [];
     eb := bus.NewEventBus ZapLogger; goroutines := [];
     lifecycle := []; store := []; closed := false; ctx_done := false;
     ticker := None; collector := NotStarted; published := [] |}.

Definition env_ok : gmap string string :=
  {[ "APP_INFLUX_DATABASE" := "telemetry" ]}.



Definition env_bad_precision : gmap string string :=
  <[ "APP_INFLUX_PRECISION" := "bogus" ]> env_ok.

Definition conf : HTTPConfig :=
  {| Addr := "http://localhost:8086"; Username := "admin"; Password := "";
     Timeout := 5000000000 |}.

Definition repo : InfluxRepo :=
  {| repo_log := ZapLogger; client := {| client_conf := conf |} |}.

Definition collector : Collector :=
  {| c_log := ZapLogger; c_repo := repo |}.

(** An event without readings. *)
Definition empty_event : bus.DataCollectedEvent :=
  {| bus.DeviceID := "A1"; bus.Values := ∅ |}.

(** The process with the consumer constructed. *)
Definition constructed : State :=
  (infra.NewInfluxRepo (library true) ZapLogger (boot env_ok)).2.

(** The same, a microsecond after the collector's event was published: the
    call of the consumer's subscriber waits in the scheduler pool. *)
Definition delivered : State :=
  elapse 1000 (Publish app.sample constructed).2.

(** The process with the consumer constructed and the collector's loop
    entered. *)
Definition running : State := (app.Start_enter constructed).2.

(** The same, one interval later: a tick waits in the ticker's channel. *)
Definition ticked : State := elapse 3000000000 running.

(** The same, cancelled after two seconds. *)
Definition cancelled : State := set_ctx_done true (elapse 2000000000 running).

(** The process after [NewInfluxRepo] ran with APP_INFLUX_PRECISION=bogus. *)
Definition misconfigured : State :=
  (infra.NewInfluxRepo (library true) ZapLogger (boot env_bad_precision)).2.

(** The batch the library makes for database "telemetry" at precision "s". *)
Definition batch : BatchPoints :=
  {| bp_database := "telemetry"; bp_precision := "s"; bp_points := [] |}.

(** Whole numbers in decimal, with an optional sign: what the examples
    need of [strconv.Atoi]. *)
Definition Atoi (s : string) : Z + error :=
  match s with
  | String "-"%char rest =>
      match leading_digits rest None with
      | (Some n, EmptyString) => inl (- n)
      | _ => inr ("strconv.Atoi: parsing " +:+ s +:+ ": invalid syntax")
      end
  | String "+"%char rest =>
      match leading_digits rest None with
      | (Some n, EmptyString) => inl n
      | _ => inr ("strconv.Atoi: parsing " +:+ s +:+ ": invalid syntax")
      end
  | _ =>
      match leading_digits s None with
      | (Some n, EmptyString) => inl n
      | _ => inr ("strconv.Atoi: parsing " +:+ s +:+ ": invalid syntax")
      end
  end.

(** A control request with an action and a power that is not a number, and
    one with no parameters at all. *)
Definition control_request : server.Request :=
  {| server.req_method := "POST"; server.req_path := "/api/control";
     server.req_query := {[ "action" := ["charge"; "off"]; "kw10" := ["a lot"] ]} |}.

Definition bare_request : server.Request :=
  {| server.req_method := "GET"; server.req_path := "/"; server.req_query := ∅ |}.

(** The collector's event published twice on the bus of the consumer: two
    deliveries wait.  And the same with APP_INFLUX_PRECISION=bogus. *)
Definition two_pending : State :=
  (Publish app.sample (Publish app.sample constructed).2).2.

Definition two_doomed : State :=
  (Publish app.sample (Publish app.sample misconfigured).2).2.

(** The server [NewHTTPServer] makes for port 8080. *)
Definition http_server : server.Server :=
  {| server.log := ZapLogger; server.router := server.routes; server.srv := None;
     server.port := 8080 |}.

(** A second store consumer, for another database. *)
Definition other_repo : InfluxRepo :=
  {| repo_log := ZapLogger;
     client := {| client_conf := {| Addr := "http://influx2:8086"; Username := "admin";
                                    Password := ""; Timeout := 5000000000 |} |} |}.

End example.

(* ===================================================================== *)
(** ** Definitions used to state the properties *)
(* ===================================================================== *)

(** A configuration value as the specification describes it: the value of
    the environment variable, or the stated default when the variable is
    absent (or empty, which [os.Getenv] cannot tell apart). *)
Definition configured (s : State) (key dflt : string) : string :=
  match environ s !! key with
  | None => dflt
  | Some v => if decide (v = "") then dflt else v
  end.

(** The settings of the consumer, read that way.  The database name has
    no default: absent, it is the empty string. *)
Definition database (s : State) : string :=
  configured s "APP_INFLUX_DATABASE" "".

Definition precision (s : State) : string :=
  configured s "APP_INFLUX_PRECISION" "s".

Definition timeout_text (s : State) : string :=
  configured s "APP_INFLUX_TIMEOUT" "5s".

Definition http_conf (s : State) (timeout : Z) : HTTPConfig :=
  {| Addr := configured s "APP_INFLUX_URL" "http://localhost:8086";
     Username := configured s "APP_INFLUX_USERNAME" "admin";
     Password := configured s "APP_INFLUX_PASSWORD" "";
     Timeout := timeout |}.

(** A fatal start: the diagnostic is logged at the fatal level, the process
    exits with status 1, and nothing else has happened to it. *)
Definition fatal_start (m : string) (fs : list (string * string)) (s : State)
    : Res InfluxRepo * State :=
  (Exit 1,
   set_logs (fun es => es ++ [{| lvl := FatalLevel; msg := m; zfields := fs |}]) s).

(** A successful start with client [cl]: the repo is returned, its
    subscriber is registered on the bus, and its hook is appended. *)
Definition started (log : Logger) (cl : Client) (s : State) : Res InfluxRepo * State :=
  let repo := {| repo_log := log; client := cl |} in
  (Ret repo,
   set_lifecycle (fun hs => hs ++ [RepoHook repo])
     (set_eb (fun b => bus.Subscribe b (InfluxSubscriber repo (database s) (precision s)))
        s)).

(** The process with another environment. *)
Definition with_environ (env : gmap string string) (s : State) : State :=
  {| clock := clock s; environ := env; logs := logs s; eb := eb s;
     goroutines := goroutines s; lifecycle := lifecycle s; store := store s;
     closed := closed s; ctx_done := ctx_done s; ticker := ticker s;
     collector := collector s; published := published s |}.

(** The goroutines a sequence of bus calls spawns, starting from the
    registry [subs]: each publication reaches the handlers subscribed
    before it, in their order. *)
Fixpoint deliveries {H : Type} (subs : list H) (ops : list (bus.BusOp H))
    : list (bus.Goroutine H) :=
  match ops with
  | [] => []
  | bus.OpSubscribe fn :: ops => deliveries (subs ++ [fn]) ops
  | bus.OpPublish e :: ops => map (fun sub => bus.go sub e) subs ++ deliveries subs ops
  end.

(** The producer started at time [t0] with [pub0] published before keeps
    within its rate: a ticker of 3 seconds that is never ahead of the clock
    by more than its period, and no more publications, counting the tick
    that waits, than intervals the ticker has gone through. *)
Definition within_rate (t0 : Z) (pub0 : list (Z * bus.DataCollectedEvent))
    (s : State) : Prop :=
  exists (evs : list (Z * bus.DataCollectedEvent)) (t : Ticker),
    published s = pub0 ++ evs
    /\ ticker s = Some t
    /\ period t = 3 * app.Second
    /\ next_fire t - 3 * app.Second <= clock s
    /\ 3 * app.Second * (Z.of_nat (length evs) + (if C t then 1 else 0))
       <= next_fire t - 3 * app.Second - t0.

(** The same library, with the error of [NewBatchPoints] taken away. *)
Definition without_batch_error (lib : Library) : Library :=
  {| ParseDuration := ParseDuration lib;
     NewHTTPClient := NewHTTPClient lib;
     NewBatchPoints := fun conf => ((NewBatchPoints lib conf).1, None);
     NewPoint_check := NewPoint_check lib;
     Write := Write lib |}.

(** The point the subscriber builds for event [e] at time [now]. *)
Definition point_of (e : bus.DataCollectedEvent) (now : Z) : Point :=
  {| pt_name := "device_data";
     pt_tags := {[ "device" := bus.DeviceID e ]};
     pt_fields := IfFloat64 <$> bus.Values e;
     pt_time := now |}.

(** The log entries of the subscriber. *)
Definition point_failed (err : error) : LogEntry :=
  {| lvl := ErrorLevel; msg := "influx point create failed"; zfields := [zap_Error err] |}.

Definition write_failed (err : error) : LogEntry :=
  {| lvl := ErrorLevel; msg := "influx write failed"; zfields := [zap_Error err] |}.

Definition write_succeeded (e : bus.DataCollectedEvent) : LogEntry :=
  {| lvl := InfoLevel; msg := "influx write success";
     zfields := [zap_String "device" (bus.DeviceID e)] |}.

Definition write_outcome (e : bus.DataCollectedEvent) (err : option error) : LogEntry :=
  match err with
  | Some err => write_failed err
  | None => write_succeeded e
  end.

(** What [NewPoint] answers for the point of [e] at the time of [s]. *)
Definition checked (lib : Library) (e : bus.DataCollectedEvent) (s : State)
    : option error :=
  NewPoint_check lib "device_data" {[ "device" := bus.DeviceID e ]}
    (IfFloat64 <$> bus.Values e) (clock s).

(** Whatever ticker the process has was stopped. *)
Definition released (s : State) : Prop :=
  forall t : Ticker, ticker s = Some t -> stopped t = true.

(** The ticker [Collector.Start] creates at time [t0]. *)
Definition fresh_ticker (t0 : Z) : Ticker :=
  {| period := 3 * app.Second; next_fire := t0 + 3 * app.Second;
     C := false; stopped := false |}.




(* ===================================================================== *)
(** ** The event bus *)
(* ===================================================================== *)

Section BusFacts.
Context {H : Type}.
Implicit Types (b : bus.EventBus H) (e : bus.DataCollectedEvent)
               (pool : list (bus.Goroutine H)).

Lemma Publish_spawns b e pool :
  bus.Publish b e pool = pool ++ map (fun sub => bus.go sub e) (bus.subscribers b).
Proof.
  unfold bus.Publish.
  generalize (bus.subscribers b) as subs. intros subs.
  revert pool. induction subs as [|sub subs IH]; intros pool; simpl.
  - by rewrite app_nil_r.
  - rewrite IH. by rewrite <- app_assoc.
Qed.

Lemma apply_ops_subscribers (ops : list (bus.BusOp H)) b pool :
  bus.subscribers (bus.apply_ops ops (b, pool)).1
  = bus.subscribers b ++ bus.subscribed ops.
Proof.
  unfold bus.apply_ops.
  revert b pool. induction ops as [|op ops IH]; intros b pool; simpl.
  - by rewrite app_nil_r.
  - destruct op as [fn|e]; simpl; rewrite IH; simpl.
    + by rewrite <- app_assoc.
    + done.
Qed.

Lemma subscribed_all (hs : list H) :
  bus.subscribed (bus.OpSubscribe <$> hs) = hs.
Proof.
  induction hs as [|h hs IH]; [done|].
  rewrite fmap_cons. simpl. by f_equal.
Qed.

End BusFacts.

(** C7. [Subscribe(h)] puts [h] at the end of the registry and leaves the
    handlers registered before as they were and in their order; whatever
    sequence of [Subscribe] and [Publish] calls is made on a bus, its
    registry afterwards is the registry before followed by the handlers
    subscribed, so nothing is ever removed and the registry never gets
    shorter; and any number of handlers can be registered: there is no
    bound on the count. *)
Theorem subscribe_appends_registry_only_grows :
  forall (H : Type) (b : bus.EventBus H) (pool : list (bus.Goroutine H)),
    (forall h : H, bus.subscribers (bus.Subscribe b h) = bus.subscribers b ++ [h])
    /\ (forall (h : H) (i : nat),
          (i < length (bus.subscribers b))%nat ->
          bus.subscribers (bus.Subscribe b h) !! i = bus.subscribers b !! i)
    /\ (forall ops : list (bus.BusOp H),
          bus.subscribers (bus.apply_ops ops (b, pool)).1
          = bus.subscribers b ++ bus.subscribed ops
          /\ bus.subscribers b `prefix_of` bus.subscribers (bus.apply_ops ops (b, pool)).1
          /\ (length (bus.subscribers b)
              <= length (bus.subscribers (bus.apply_ops ops (b, pool)).1))%nat)
    /\ (forall hs : list H,
          bus.subscribers (bus.apply_ops (bus.OpSubscribe <$> hs) (b, pool)).1
          = bus.subscribers b ++ hs
          /\ length (bus.subscribers (bus.apply_ops (bus.OpSubscribe <$> hs) (b, pool)).1)
             = (length (bus.subscribers b) + length hs)%nat).
Proof.
  intros H b pool. split; [done|]. split; [|split].
  - intros h i Hi. simpl. by apply lookup_app_l.
  - intros ops. rewrite apply_ops_subscribers. split; [done|]. split.
    + by apply prefix_app_r.
    + rewrite length_app. lia.
  - intros hs. rewrite apply_ops_subscribers, subscribed_all.
    split; [done|]. by rewrite length_app.
Qed.

(** A bus with two handlers gets a third: the two stay in place. *)
Lemma subscribe_appends_registry_only_grows_witness :
  bus.subscribers
    (bus.Subscribe {| bus.log := ZapLogger; bus.subscribers := [1%nat; 2%nat] |} 3%nat)
    !! 1%nat
  = Some 2%nat.
Proof.
  pose proof (subscribe_appends_registry_only_grows nat
                {| bus.log := ZapLogger; bus.subscribers := [1%nat; 2%nat] |} [])
    as (_ & Hkeep & _).
  rewrite (Hkeep 3%nat 1%nat); [reflexivity | simpl; lia].
Defined.

(** C1. [Publish(e)] hands to the scheduler one call [sub(e)] for each
    handler of the registry, in one-to-one correspondence with its
    positions (so each handler is dispatched exactly once, with [e]), for
    a registry of any size, empty included.  It runs none of them: on
    the process, [Publish] returns at once with no value, and only the
    scheduler pool (and the history of publications) differ afterwards;
    the log, the store, the clock and the bus are as before. *)
Theorem publish_dispatches_each_handler_once :
  (forall (H : Type) (b : bus.EventBus H) (e : bus.DataCollectedEvent)
          (pool : list (bus.Goroutine H)),
      bus.Publish b e pool = pool ++ map (fun sub => bus.go sub e) (bus.subscribers b)
      /\ length (bus.Publish b e pool)
         = (length pool + length (bus.subscribers b))%nat
      /\ (forall i : nat,
            bus.Publish b e pool !! (length pool + i)%nat
            = (fun sub => bus.go sub e) <$> (bus.subscribers b !! i)))
  /\ (forall (e : bus.DataCollectedEvent) (s : State),
        (Publish e s).1 = Ret tt
        /\ goroutines (Publish e s).2
           = goroutines s ++ map (fun sub => bus.go sub e) (bus.subscribers (eb s))
        /\ eb (Publish e s).2 = eb s
        /\ logs (Publish e s).2 = logs s
        /\ store (Publish e s).2 = store s
        /\ clock (Publish e s).2 = clock s).
Proof.
  split.
  - intros H b e pool. rewrite Publish_spawns. split; [done|]. split.
    + by rewrite length_app, length_map.
    + intros i. rewrite lookup_app_r by lia.
      replace (length pool + i - length pool)%nat with i by lia.
      by rewrite list_lookup_fmap.
  - intros e s. unfold Publish; simpl. by rewrite Publish_spawns.
Qed.

(* ===================================================================== *)
(** ** The subscriber of InfluxRepo *)
(* ===================================================================== *)

Lemma copy_fields_fmap (values : gmap string float64) :
  infra.copy_fields values = IfFloat64 <$> values.
Proof.
  unfold infra.copy_fields.
  apply (map_fold_weak_ind
           (fun (r : gmap string iface) (m : gmap string float64) => r = IfFloat64 <$> m)).
  - by rewrite fmap_empty.
  - intros k v m r _ ->. by rewrite fmap_insert.
Qed.

Section SubscriberFacts.
Variable lib : Library.
Variable repo : InfluxRepo.
Variables influxDatabase influxPrecision : string.

Local Abbreviation conf := {| Database := influxDatabase; Precision := influxPrecision |}.
Local Abbreviation handle := (infra.subscriber lib repo influxDatabase influxPrecision).

Implicit Types (e : bus.DataCollectedEvent) (s : State).

Lemma subscriber_point_error e s err :
  checked lib e s = Some err ->
  handle e s = (Ret tt, set_logs (fun es => es ++ [point_failed err]) s).
Proof.
  unfold checked, infra.subscriber. intros Hc.
  unfold mbind, M_bind, Now, gets, NewPoint. simpl.
  rewrite copy_fields_fmap, Hc. reflexivity.
Qed.

Lemma subscriber_nil_batch e s :
  checked lib e s = None ->
  (NewBatchPoints lib conf).1 = None ->
  handle e s = (Panic "invalid memory address or nil pointer dereference", s).
Proof.
  unfold checked, infra.subscriber. intros Hc Hb.
  unfold mbind, M_bind, Now, gets, NewPoint. simpl.
  rewrite copy_fields_fmap, Hc, Hb. reflexivity.
Qed.

Lemma subscriber_write e s b0 err took :
  checked lib e s = None ->
  (NewBatchPoints lib conf).1 = Some b0 ->
  Write lib (client repo) (AddPoint b0 (point_of e (clock s))) (clock s) = (err, took) ->
  handle e s =
    (Ret tt,
     set_logs (fun es => es ++ [write_outcome e err])
       (set_store (fun ws => ws ++ [{| wc_client := client repo;
                                       wc_batch := AddPoint b0 (point_of e (clock s));
                                       wc_start := clock s;
                                       wc_end := clock s + Z.of_N took;
                                       wc_err := err |}])
          (set_clock (fun _ => clock s + Z.of_N took) s))).
Proof.
  unfold checked, infra.subscriber. intros Hc Hb Hw.
  unfold mbind, M_bind, Now, gets, NewPoint. simpl.
  rewrite copy_fields_fmap, Hc, Hb.
  unfold infra.client_Write. fold (point_of e (clock s)). rewrite Hw.
  destruct err; reflexivity.
Qed.

(** The subscriber changes the clock, the log and the store, by amounts
    that depend on the event and on the time only; nothing else. *)
Lemma subscriber_frame e s :
  exists (r : Res unit) (dl : list LogEntry) (dw : list WriteCall) (took : N),
    (forall s', clock s' = clock s ->
       handle e s' =
         (r, set_logs (fun es => es ++ dl)
               (set_store (fun ws => ws ++ dw)
                  (set_clock (fun t => t + Z.of_N took) s'))))
    /\ (length dw <= 1)%nat
    /\ (forall w, w ∈ dw ->
          exists b0, (NewBatchPoints lib conf).1 = Some b0
            /\ checked lib e s = None
            /\ w = {| wc_client := client repo;
                      wc_batch := AddPoint b0 (point_of e (clock s));
                      wc_start := clock s;
                      wc_end := clock s + Z.of_N took;
                      wc_err := (Write lib (client repo)
                                   (AddPoint b0 (point_of e (clock s))) (clock s)).1 |})
    /\ (forall entry, entry ∈ dl ->
          (exists err, checked lib e s = Some err /\ entry = point_failed err /\ dw = [])
          \/ (exists w, dw = [w] /\ entry = write_outcome e (wc_err w))).
Proof.
  destruct (checked lib e s) as [err|] eqn:Hc.
  { exists (Ret tt), [point_failed err], [], 0%N. split; [|split; [|split]].
    - intros s' Hs'. rewrite (subscriber_point_error e s' err).
      + destruct s'; unfold set_logs, set_store, set_clock; simpl.
        by rewrite app_nil_r, Z.add_0_r.
      + unfold checked in *. by rewrite Hs'.
    - simpl; lia.
    - intros w Hw. by apply elem_of_nil in Hw.
    - intros entry Hentry. apply list_elem_of_singleton in Hentry as ->.
      left. by exists err. }
  destruct (NewBatchPoints lib conf).1 as [b0|] eqn:Hb.
  2:{ exists (Panic "invalid memory address or nil pointer dereference"), [], [], 0%N.
      split; [|split; [|split]].
      - intros s' Hs'. rewrite (subscriber_nil_batch e s'); [|by unfold checked in *; rewrite Hs'|done].
        destruct s'; unfold set_logs, set_store, set_clock; simpl.
        by rewrite !app_nil_r, Z.add_0_r.
      - simpl; lia.
      - intros w Hw. by apply elem_of_nil in Hw.
      - intros entry Hentry. by apply elem_of_nil in Hentry. }
  destruct (Write lib (client repo) (AddPoint b0 (point_of e (clock s))) (clock s))
    as [err took] eqn:Hw.
  eexists (Ret tt), [write_outcome e err], [_], took. split; [|split; [|split]].
  - intros s' Hs'.
    rewrite (subscriber_write e s' b0 err took);
      [|by unfold checked in *; rewrite Hs'|done|by rewrite Hs'].
    rewrite Hs'. destruct s'; unfold set_logs, set_store, set_clock; simpl in *.
    subst. reflexivity.
  - simpl; lia.
  - intros w Hin. apply list_elem_of_singleton in Hin as ->.
    exists b0. by rewrite Hw.
  - intros entry Hentry. apply list_elem_of_singleton in Hentry as ->.
    right. eexists. split; [done|]. done.
Qed.

End SubscriberFacts.

(* ===================================================================== *)
(** ** Steps of the process *)
(* ===================================================================== *)

Section ProcessFacts.
Variable lib : Library.
Variable c : Collector.

Implicit Types (s : State) (a : Action) (acts : list Action).

(** What a subscriber call leaves alone, and that time does not go back. *)
Lemma call_frame (fn : Subscriber) (e : bus.DataCollectedEvent) s :
  let s' := (infra.call lib fn e s).2 in
  eb s' = eb s /\ goroutines s' = goroutines s /\ lifecycle s' = lifecycle s
  /\ published s' = published s /\ collector s' = collector s
  /\ ticker s' = ticker s /\ ctx_done s' = ctx_done s /\ environ s' = environ s
  /\ closed s' = closed s /\ clock s <= clock s'.
Proof.
  destruct fn as [repo db prec]. simpl.
  destruct (subscriber_frame lib repo db prec e s) as (r & dl & dw & took & Heq & _).
  rewrite (Heq s eq_refl). simpl. repeat split; lia.
Qed.

Lemma Start_round_tick s :
  app.Start_round c app.CaseTick s =
    (Ret tt,
     set_published (fun h => h ++ [(clock s, app.sample)])
       (set_goroutines (bus.Publish (eb s) app.sample)
          (set_logs (fun es => es ++ [{| lvl := InfoLevel; msg := "collecting data...";
                                         zfields := [] |}])
             (set_ticker (fmap (fun t => {| period := period t; next_fire := next_fire t;
                                            C := false; stopped := stopped t |})) s)))).
Proof. reflexivity. Qed.

Lemma Start_round_done s :
  app.Start_round c app.CaseDone s =
    (Ret tt,
     set_collector Returned
       (set_ticker (fmap (fun t => {| period := period t; next_fire := next_fire t;
                                      C := C t; stopped := true |}))
          (set_logs (fun es => es ++ [{| lvl := InfoLevel; msg := "collector exit";
                                         zfields := [] |}]) s))).
Proof. reflexivity. Qed.

(** Running a goroutine of the pool: it leaves the pool and its call is
    made; the step exists when the call returns. *)
Lemma step_run i s s' :
  step lib c (RunGoroutine i) s = Some s' ->
  exists g : bus.Goroutine Subscriber,
    goroutines s !! i = Some g
    /\ infra.call lib (bus.go_fn g) (bus.go_arg g) (set_goroutines (delete i) s)
       = (Ret tt, s').
Proof.
  unfold step. destruct (goroutines s !! i) as [g|]; [|done].
  destruct (infra.call lib (bus.go_fn g) (bus.go_arg g) (set_goroutines (delete i) s))
    as [[[]| |] s1] eqn:Hcall; [|done..].
  intros [= <-]. exists g. by rewrite Hcall.
Qed.

Lemma step_run_returns i s g s' :
  goroutines s !! i = Some g ->
  infra.call lib (bus.go_fn g) (bus.go_arg g) (set_goroutines (delete i) s) = (Ret tt, s') ->
  step lib c (RunGoroutine i) s = Some s'.
Proof. unfold step. by intros -> ->. Qed.

Lemma step_select sel s s' :
  step lib c (Select sel) s = Some s' ->
  app.ready sel s = true /\ s' = (app.Start_round c sel s).2.
Proof.
  unfold step. destruct (app.ready sel s); [|done].
  destruct sel; [rewrite Start_round_done | rewrite Start_round_tick];
    by intros [= <-].
Qed.

Lemma step_eb a s s' : step lib c a s = Some s' -> eb s' = eb s.
Proof.
  destruct a as [d| |sel|i].
  - by intros [= <-].
  - by intros [= <-].
  - intros (_ & ->)%step_select.
    destruct sel; [by rewrite Start_round_done | by rewrite Start_round_tick].
  - intros (g & _ & Hcall)%step_run.
    pose proof (call_frame (bus.go_fn g) (bus.go_arg g) (set_goroutines (delete i) s)) as Hf.
    rewrite Hcall in Hf. simpl in Hf. by destruct Hf as (-> & _).
Qed.

Lemma step_clock a s s' : step lib c a s = Some s' -> clock s <= clock s'.
Proof.
  destruct a as [d| |sel|i].
  - intros [= <-]. simpl. lia.
  - intros [= <-]. simpl. lia.
  - intros (_ & ->)%step_select.
    destruct sel; [rewrite Start_round_done | rewrite Start_round_tick]; simpl; lia.
  - intros (g & _ & Hcall)%step_run.
    pose proof (call_frame (bus.go_fn g) (bus.go_arg g) (set_goroutines (delete i) s)) as Hf.
    rewrite Hcall in Hf. simpl in Hf. lia.
Qed.

Lemma exec_eb acts s s' : exec lib c acts s = Some s' -> eb s' = eb s.
Proof.
  revert s. induction acts as [|a acts IH]; intros s; simpl.
  - by intros [= <-].
  - destruct (step lib c a s) as [s1|] eqn:Hstep; [|done].
    intros Hexec. rewrite (IH _ Hexec). by eapply step_eb.
Qed.

Lemma exec_clock acts s s' : exec lib c acts s = Some s' -> clock s <= clock s'.
Proof.
  revert s. induction acts as [|a acts IH]; intros s; simpl.
  - intros [= <-]. lia.
  - destruct (step lib c a s) as [s1|] eqn:Hstep; [|done].
    intros Hexec. pose proof (IH _ Hexec). pose proof (step_clock _ _ _ Hstep). lia.
Qed.

End ProcessFacts.

(** C2. An event published at some moment, whose call of the InfluxRepo
    subscriber is run by the scheduler at any later moment, when the
    library hands back a batch and accepts the point: the call returns and
    the store client has received one write, whose batch is the library's
    batch with one point added; that point has measurement "device_data",
    the single tag device = sourceID, and as fields the readings, key for
    key; its timestamp is the clock when the handler runs (the start of
    the write), which is no earlier than the clock at the call of
    [Publish] and no later than the end of the write. *)
Theorem stored_point_matches_event :
  forall (lib : Library) (c : Collector) (repo : InfluxRepo) (db prec : string)
         (e : bus.DataCollectedEvent) (s0 s : State) (acts : list Action)
         (i : nat) (b0 : BatchPoints),
    exec lib c acts (Publish e s0).2 = Some s ->
    goroutines s !! i = Some (bus.go (InfluxSubscriber repo db prec) e) ->
    (NewBatchPoints lib {| Database := db; Precision := prec |}).1 = Some b0 ->
    checked lib e s = None ->
    exists (s' : State) (w : WriteCall) (pt : Point),
      step lib c (RunGoroutine i) s = Some s'
      /\ store s' = store s ++ [w]
      /\ wc_client w = client repo
      /\ wc_batch w = AddPoint b0 pt
      /\ bp_points (wc_batch w) = bp_points b0 ++ [pt]
      /\ pt_name pt = "device_data"
      /\ pt_tags pt = {[ "device" := bus.DeviceID e ]}
      /\ pt_fields pt = IfFloat64 <$> bus.Values e
      /\ (forall k : string, pt_fields pt !! k = IfFloat64 <$> (bus.Values e !! k))
      /\ dom (pt_fields pt) = dom (bus.Values e)
      /\ pt_time pt = clock s
      /\ pt_time pt = wc_start w
      /\ clock s0 <= pt_time pt
      /\ pt_time pt <= wc_end w
      /\ wc_end w = clock s'.
Proof.
  intros lib c repo db prec e s0 s acts i b0 Hexec Hg Hb Hc.
  destruct (Write lib (client repo) (AddPoint b0 (point_of e (clock s))) (clock s))
    as [err took] eqn:Hw.
  pose proof (subscriber_write lib repo db prec e (set_goroutines (delete i) s)
                b0 err took Hc Hb Hw) as Hcall.
  eexists _, _, (point_of e (clock s)). split.
  - apply (step_run_returns lib c i s _ _ Hg). exact Hcall.
  - cbn. split; [reflexivity|]. repeat split.
    + intros k. by rewrite lookup_fmap.
    + by rewrite dom_fmap_L.
    + apply exec_clock in Hexec. simpl in Hexec. lia.
    + simpl. lia.
Qed.

(** Publishing [Event{sourceID: "A1", readings: {"temp": 23.5}}] on the bus
    the consumer has subscribed to: the point written is tagged device=A1
    and has the field temp=23.5. *)
Lemma stored_point_matches_event_witness :
  exists (s' : State) (w : WriteCall) (pt : Point),
    step (example.library true) example.collector (RunGoroutine 0) example.delivered
    = Some s'
    /\ store s' = [w]
    /\ bp_points (wc_batch w) = [pt]
    /\ pt_name pt = "device_data"
    /\ pt_tags pt !! "device" = Some "A1"
    /\ pt_fields pt !! "temp" = Some (IfFloat64 23.5%float)
    /\ 0 <= pt_time pt <= wc_end w.
Proof.
  destruct (stored_point_matches_event (example.library true) example.collector
              example.repo "telemetry" "s" app.sample example.constructed
              example.delivered [Elapse 1000] 0 example.batch)
    as (s' & w & pt & Hstep & Hstore & _ & _ & Hpts & Hname & Htags & Hfields
        & _ & _ & _ & _ & Hlo & Hhi & _).
  - reflexivity.
  - reflexivity.
  - reflexivity.
  - reflexivity.
  - exists s', w, pt. split; [exact Hstep|].
    rewrite Hstore, Hpts, Hname, Htags, Hfields.
    repeat split; try reflexivity; assumption.
Defined.

(** C3. When [NewPoint] refuses the point, the subscriber writes one
    error entry and returns: no write is attempted.  When the write comes
    back with an error, it writes one error entry and returns: the store
    client saw that one call and no second one.  In both cases the call
    returns normally (no panic, no exit), and the bus, the scheduler pool,
    the lifecycle, the collector's loop, its ticker and its context are
    as before.  What handling an event adds to the log and to the store,
    and how it ends, depends on the event and on the time only: it is the
    same in any two states with the same clock, whatever was handled (and
    failed) before. *)
Theorem write_failure_contained :
  forall (lib : Library) (repo : InfluxRepo) (db prec : string)
         (e : bus.DataCollectedEvent) (s : State),
    (forall err : error,
        checked lib e s = Some err ->
        infra.subscriber lib repo db prec e s
        = (Ret tt, set_logs (fun es => es ++ [point_failed err]) s))
    /\ (forall (b0 : BatchPoints) (err : error) (took : N),
          checked lib e s = None ->
          (NewBatchPoints lib {| Database := db; Precision := prec |}).1 = Some b0 ->
          Write lib (client repo) (AddPoint b0 (point_of e (clock s))) (clock s)
          = (Some err, took) ->
          infra.subscriber lib repo db prec e s
          = (Ret tt,
             set_logs (fun es => es ++ [write_failed err])
               (set_store (fun ws => ws ++ [{| wc_client := client repo;
                                               wc_batch := AddPoint b0 (point_of e (clock s));
                                               wc_start := clock s;
                                               wc_end := clock s + Z.of_N took;
                                               wc_err := Some err |}])
                  (set_clock (fun _ => clock s + Z.of_N took) s))))
    /\ (eb (infra.subscriber lib repo db prec e s).2 = eb s
        /\ goroutines (infra.subscriber lib repo db prec e s).2 = goroutines s
        /\ lifecycle (infra.subscriber lib repo db prec e s).2 = lifecycle s
        /\ published (infra.subscriber lib repo db prec e s).2 = published s
        /\ collector (infra.subscriber lib repo db prec e s).2 = collector s
        /\ ticker (infra.subscriber lib repo db prec e s).2 = ticker s
        /\ ctx_done (infra.subscriber lib repo db prec e s).2 = ctx_done s)
    /\ (exists (r : Res unit) (dl : list LogEntry) (dw : list WriteCall) (took : N),
          forall s' : State,
            clock s' = clock s ->
            infra.subscriber lib repo db prec e s'
            = (r, set_logs (fun es => es ++ dl)
                    (set_store (fun ws => ws ++ dw)
                       (set_clock (fun t => t + Z.of_N took) s')))).
Proof.
  intros lib repo db prec e s. split; [|split; [|split]].
  - intros err Hc. by apply subscriber_point_error.
  - intros b0 err took Hc Hb Hw.
    by rewrite (subscriber_write lib repo db prec e s b0 (Some err) took Hc Hb Hw).
  - pose proof (call_frame lib (InfluxSubscriber repo db prec) e s) as Hf.
    simpl in Hf. tauto.
  - destruct (subscriber_frame lib repo db prec e s) as (r & dl & dw & took & Heq & _).
    by exists r, dl, dw, took.
Qed.

(** An event without readings is refused by the library and dropped; an
    event that meets a store that is down is dropped after one write; the
    same event then handled again, at the same clock, ends the same way. *)
Lemma write_failure_contained_witness :
  infra.subscriber (example.library true) example.repo "telemetry" "s"
    example.empty_event example.delivered
  = (Ret tt,
     set_logs (fun es => es ++ [point_failed "Point without fields is unsupported"])
       example.delivered)
  /\ (infra.subscriber (example.library false) example.repo "telemetry" "s"
        app.sample example.delivered).1 = Ret tt
  /\ length (store (infra.subscriber (example.library false) example.repo "telemetry" "s"
                      app.sample example.delivered).2) = 1%nat
  /\ logs (infra.subscriber (example.library false) example.repo "telemetry" "s"
             app.sample example.delivered).2
     = [write_failed "connection refused"]
  /\ (exists (r : Res unit) (dl : list LogEntry),
        (infra.subscriber (example.library false) example.repo "telemetry" "s" app.sample
           example.delivered).1 = r
        /\ logs (infra.subscriber (example.library false) example.repo "telemetry" "s"
                   app.sample
                   (set_clock (fun _ => clock example.delivered)
                      (infra.subscriber (example.library false) example.repo "telemetry" "s"
                         app.sample example.delivered).2)).2
           = [write_failed "connection refused"] ++ dl).
Proof.
  pose proof (write_failure_contained (example.library true) example.repo "telemetry" "s"
                example.empty_event example.delivered) as (Hpoint & _).
  pose proof (write_failure_contained (example.library false) example.repo "telemetry" "s"
                app.sample example.delivered) as (_ & Hwrite & _ & (r & dl & dw & took & Hsame)).
  split; [|split; [|split; [|split]]].
  - apply Hpoint. reflexivity.
  - rewrite (Hwrite example.batch "connection refused" 1000000%N); reflexivity.
  - rewrite (Hwrite example.batch "connection refused" 1000000%N); reflexivity.
  - rewrite (Hwrite example.batch "connection refused" 1000000%N); reflexivity.
  - exists r, dl. split.
    + by rewrite (Hsame example.delivered eq_refl).
    + rewrite (Hsame (set_clock _ _)) by reflexivity.
      rewrite (Hwrite example.batch "connection refused" 1000000%N); reflexivity.
Defined.

(** C9, at the input where the code departs from it.  With
    APP_INFLUX_PRECISION=bogus the constructor succeeds and registers the
    subscriber; the library refuses to make a batch for that precision and
    hands back nil with the error, which the subscriber drops.  For the
    collector's event the point is built, and the call [bp.AddPoint(pt)]
    on the nil batch panics: the store client receives no write at all,
    and the process ends at the first delivery. *)
Theorem nil_batch_panics_before_write :
  infra.NewInfluxRepo (example.library true) ZapLogger
    (example.boot example.env_bad_precision)
  = (Ret example.repo, example.misconfigured)
  /\ bus.subscribers (eb example.misconfigured)
     = [InfluxSubscriber example.repo "telemetry" "bogus"]
  /\ NewBatchPoints (example.library true)
       {| Database := "telemetry"; Precision := "bogus" |}
     = (None, Some "time: unknown unit in duration 1bogus")
  /\ NewPoint (example.library true) "device_data" {[ "device" := "A1" ]}
       (infra.copy_fields (bus.Values app.sample)) (clock example.misconfigured)
     = inl (point_of app.sample (clock example.misconfigured))
  /\ infra.call (example.library true) (InfluxSubscriber example.repo "telemetry" "bogus")
       app.sample example.misconfigured
     = (Panic "invalid memory address or nil pointer dereference", example.misconfigured)
  /\ store example.misconfigured = []
  /\ exec (example.library true) example.collector
       [Elapse 3000000000; Select app.CaseTick; RunGoroutine 0]
       (app.Start_enter example.misconfigured).2 = None.
Proof. repeat split; vm_compute; reflexivity. Qed.

(** C10 as stated fails: here batch creation returns an error, the point
    is accepted, and the handler does not run to its end; it panics. *)
Lemma batch_error_aborts_handler :
  (NewBatchPoints (example.library true)
     {| Database := "telemetry"; Precision := "bogus" |}).2
  = Some "time: unknown unit in duration 1bogus"
  /\ checked (example.library true) app.sample example.delivered = None
  /\ infra.subscriber (example.library true) example.repo "telemetry" "bogus"
       app.sample example.delivered
     = (Panic "invalid memory address or nil pointer dereference", example.delivered).
Proof. repeat split; reflexivity. Qed.

(** C10, amended.  The error of batch creation is dropped: the subscriber
    behaves exactly as it does with a library that returns no such error,
    so nothing is logged for it and it causes no return; the subscriber
    goes on to build the point, and a refused point is logged as usual.
    Whenever the library hands back a batch, with or without an error,
    the call runs to its end and returns.  Every entry the call logs is
    one of three: point creation failed (when [NewPoint] returned that
    error), write failed (when the write returned that error), or write
    succeeded; so only those two errors reach the error path. *)
Theorem batch_error_discarded :
  forall (lib : Library) (repo : InfluxRepo) (db prec : string)
         (e : bus.DataCollectedEvent) (s : State),
    infra.subscriber lib repo db prec e s
    = infra.subscriber (without_batch_error lib) repo db prec e s
    /\ (forall err : error,
          checked lib e s = Some err ->
          infra.subscriber lib repo db prec e s
          = (Ret tt, set_logs (fun es => es ++ [point_failed err]) s))
    /\ (forall b0 : BatchPoints,
          (NewBatchPoints lib {| Database := db; Precision := prec |}).1 = Some b0 ->
          (infra.subscriber lib repo db prec e s).1 = Ret tt)
    /\ (exists dl : list LogEntry,
          logs (infra.subscriber lib repo db prec e s).2 = logs s ++ dl
          /\ forall entry : LogEntry,
               entry ∈ dl ->
               (exists err : error,
                   checked lib e s = Some err /\ entry = point_failed err)
               \/ (exists (w : WriteCall) (err : error),
                      w ∈ store (infra.subscriber lib repo db prec e s).2
                      /\ wc_start w = clock s
                      /\ wc_err w = Some err /\ entry = write_failed err)
               \/ (exists w : WriteCall,
                      w ∈ store (infra.subscriber lib repo db prec e s).2
                      /\ wc_start w = clock s
                      /\ wc_err w = None /\ entry = write_succeeded e)).
Proof.
  intros lib repo db prec e s. split; [reflexivity|]. split; [|split].
  - intros err Hc. by apply subscriber_point_error.
  - intros b0 Hb. destruct (checked lib e s) as [err|] eqn:Hc.
    + by rewrite (subscriber_point_error lib repo db prec e s err Hc).
    + destruct (Write lib (client repo) (AddPoint b0 (point_of e (clock s))) (clock s))
        as [err took] eqn:Hw.
      by rewrite (subscriber_write lib repo db prec e s b0 err took Hc Hb Hw).
  - destruct (subscriber_frame lib repo db prec e s)
      as (r & dl & dw & took & Heq & _ & Hdw & Hdl).
    rewrite (Heq s eq_refl). simpl. exists dl. split; [done|].
    intros entry Hentry. destruct (Hdl entry Hentry) as [(err & Hc & -> & _)|(w & -> & ->)].
    + left. by exists err.
    + right. destruct (Hdw w) as (b0 & _ & _ & Hw); [by apply list_elem_of_singleton|].
      assert (Hstart : wc_start w = clock s) by (by rewrite Hw).
      assert (Hin : w ∈ store s ++ [w]).
      { apply elem_of_app. right. by apply list_elem_of_singleton. }
      destruct (wc_err w) as [err|] eqn:Herr.
      * left. by exists w, err.
      * right. by exists w.
Qed.

(** With the precision "bogus" and an event without readings, batch
    creation fails and is passed over: the refused point is what gets
    logged.  With the precision "s" the call returns. *)
Lemma batch_error_discarded_witness :
  infra.subscriber (example.library true) example.repo "telemetry" "bogus"
    example.empty_event example.delivered
  = (Ret tt,
     set_logs (fun es => es ++ [point_failed "Point without fields is unsupported"])
       example.delivered)
  /\ (infra.subscriber (example.library true) example.repo "telemetry" "s"
        app.sample example.delivered).1 = Ret tt.
Proof.
  split.
  - apply (batch_error_discarded (example.library true) example.repo "telemetry" "bogus"
             example.empty_event example.delivered).
    reflexivity.
  - apply (batch_error_discarded (example.library true) example.repo "telemetry" "s"
             app.sample example.delivered) with example.batch.
    reflexivity.
Defined.

(* ===================================================================== *)
(** ** Construction of InfluxRepo *)
(* ===================================================================== *)

Lemma or_default_configured (s : State) (key dflt : string) :
  infra.or_default (default "" (environ s !! key)) dflt = configured s key dflt.
Proof.
  unfold infra.or_default, configured.
  destruct (environ s !! key) as [v|]; simpl; [done|].
  by destruct (decide ("" = "")).
Qed.

Lemma getenv_configured (s : State) (key : string) :
  default "" (environ s !! key) = configured s key "".
Proof.
  unfold configured. destruct (environ s !! key) as [v|]; simpl; [|done].
  by destruct (decide (v = "")).
Qed.

(** The constructor, case by case. *)
Lemma NewInfluxRepo_cases (lib : Library) (log : Logger) (s : State) :
  infra.NewInfluxRepo lib log s =
    if decide (database s = "") then fatal_start "influx database is required" [] s
    else match ParseDuration lib (timeout_text s) with
         | inr err => fatal_start "failed to parse influx timeout" [zap_Error err] s
         | inl timeout =>
             match NewHTTPClient lib (http_conf s timeout) with
             | inr err => fatal_start "failed to connect influxdb" [zap_Error err] s
             | inl cl => started log cl s
             end
         end.
Proof.
  unfold infra.NewInfluxRepo, mbind, M_bind, Getenv, gets, database, precision,
    timeout_text, http_conf, started. simpl.
  rewrite !or_default_configured, !getenv_configured.
  destruct (decide (configured s "APP_INFLUX_DATABASE" "" = "")) as [Hdb|Hdb]; [done|].
  simpl.
  destruct (ParseDuration lib (configured s "APP_INFLUX_TIMEOUT" "5s")) as [timeout|err];
    [|done].
  by destruct (NewHTTPClient lib _) as [cl|err].
Qed.



(** C8. Constructing the consumer on any process: either the process
    exits (a fatal configuration error) with the bus untouched, or the
    constructor returns, and then the registry is the registry before with
    exactly one handler appended, the subscriber of the new repo.  After
    that the consumer subscribes no more: neither a call of its subscriber,
    nor its stop hook, nor any step of the running process changes the
    bus. *)
Theorem construction_subscribes_exactly_once :
  forall (lib : Library) (log : Logger) (s : State),
    ((exists repo : InfluxRepo, (infra.NewInfluxRepo lib log s).1 = Ret repo)
     \/ ((infra.NewInfluxRepo lib log s).1 = Exit 1
         /\ eb (infra.NewInfluxRepo lib log s).2 = eb s))
    /\ (forall (repo : InfluxRepo) (s' : State),
          infra.NewInfluxRepo lib log s = (Ret repo, s') ->
          bus.subscribers (eb s')
          = bus.subscribers (eb s) ++ [InfluxSubscriber repo (database s) (precision s)]
          /\ length (bus.subscribers (eb s')) = S (length (bus.subscribers (eb s)))
          /\ (forall (e : bus.DataCollectedEvent) (s1 : State),
                eb (infra.call lib (InfluxSubscriber repo (database s) (precision s)) e s1).2
                = eb s1)
          /\ (forall s1 : State, eb (infra.repo_OnStop repo s1).2 = eb s1)
          /\ (forall (c : Collector) (acts : list Action) (s2 : State),
                exec lib c acts s' = Some s2 -> eb s2 = eb s')).
Proof.
  intros lib log s. rewrite NewInfluxRepo_cases. split.
  - destruct (decide (database s = "")); [right; done|].
    destruct (ParseDuration lib (timeout_text s)) as [timeout|err]; [|right; done].
    destruct (NewHTTPClient lib (http_conf s timeout)) as [cl|err]; [|right; done].
    left. by eexists.
  - intros repo s' Hnew.
    destruct (decide (database s = "")); [done|].
    destruct (ParseDuration lib (timeout_text s)) as [timeout|err]; [|done].
    destruct (NewHTTPClient lib (http_conf s timeout)) as [cl|err]; [|done].
    unfold started in Hnew. injection Hnew as <- <-. simpl.
    split; [done|]. split; [by rewrite length_app; simpl; lia|].
    split; [|split].
    + intros e s1. apply (call_frame lib (InfluxSubscriber _ _ _) e s1).
    + done.
    + intros c acts s2 Hexec. by rewrite (exec_eb lib c acts _ _ Hexec).
Qed.

(** On a fresh process with a database name, the registry goes from empty
    to the one subscriber of the repo. *)
Lemma construction_subscribes_exactly_once_witness :
  bus.subscribers (eb (infra.NewInfluxRepo (example.library true) ZapLogger
                         (example.boot example.env_ok)).2)
  = [] ++ [InfluxSubscriber example.repo "telemetry" "s"].
Proof.
  pose proof (construction_subscribes_exactly_once (example.library true) ZapLogger
                (example.boot example.env_ok)) as (_ & Hone).
  destruct (Hone example.repo
              (infra.NewInfluxRepo (example.library true) ZapLogger
                 (example.boot example.env_ok)).2) as (Hsubs & _).
  - reflexivity.
  - exact Hsubs.
Defined.

(* ===================================================================== *)
(** ** The collector's loop *)
(* ===================================================================== *)

Lemma length_delete_le {A : Type} (l : list A) (i : nat) :
  (length (delete i l) <= length l)%nat.
Proof.
  revert i. induction l as [|x l IH]; intros [|i]; simpl; try lia.
  specialize (IH i). lia.
Qed.



Section CollectorFacts.
Variable lib : Library.
Variable c : Collector.

Implicit Types (s : State) (a : Action) (acts : list Action).

Lemma Start_enter_spec s :
  app.Start_enter s
  = (Ret tt, set_collector InSelect (set_ticker (fun _ => Some (fresh_ticker (clock s))) s)).
Proof. reflexivity. Qed.

Lemma step_tick s :
  app.ready app.CaseTick s = true ->
  step lib c (Select app.CaseTick) s = Some (app.Start_round c app.CaseTick s).2.
Proof. intros Hr. unfold step. rewrite Hr. by rewrite Start_round_tick. Qed.

Lemma step_done s :
  app.ready app.CaseDone s = true ->
  step lib c (Select app.CaseDone) s = Some (app.Start_round c app.CaseDone s).2.
Proof. intros Hr. unfold step. rewrite Hr. by rewrite Start_round_done. Qed.

(** Once the loop has returned and its ticker is stopped, every step keeps
    it so, publishes nothing and spawns nothing. *)
Lemma step_after_return a s s' :
  collector s = Returned -> released s ->
  step lib c a s = Some s' ->
  collector s' = Returned /\ released s' /\ published s' = published s
  /\ (length (goroutines s') <= length (goroutines s))%nat.
Proof.
  intros Hret Hrel. destruct a as [d| |sel|i].
  - intros [= <-]. split; [done|]. split; [|split; [done|done]].
    intros t. unfold elapse. simpl.
    destruct (ticker s) as [t0|] eqn:Ht; simpl; [|done].
    intros [= <-]. unfold app.fire. by rewrite !(Hrel t0 Ht).
  - intros [= <-]. by simpl.
  - intros (Hready & _)%step_select. unfold app.ready in Hready. by rewrite Hret in Hready.
  - intros (g & _ & Hcall)%step_run.
    pose proof (call_frame lib (bus.go_fn g) (bus.go_arg g) (set_goroutines (delete i) s))
      as Hf.
    rewrite Hcall in Hf. simpl in Hf.
    destruct Hf as (_ & Hg & _ & Hp & Hc & Ht & _).
    split; [by rewrite Hc|]. split; [|split; [done|]].
    + unfold released. by rewrite Ht.
    + rewrite Hg. simpl. apply length_delete_le.
Qed.

Lemma exec_after_return acts s s' :
  collector s = Returned -> released s ->
  exec lib c acts s = Some s' ->
  collector s' = Returned /\ released s' /\ published s' = published s
  /\ (length (goroutines s') <= length (goroutines s))%nat.
Proof.
  revert s. induction acts as [|a acts IH]; intros s Hret Hrel; simpl.
  - by intros [= <-].
  - destruct (step lib c a s) as [s1|] eqn:Hstep; [|done].
    destruct (step_after_return a s s1 Hret Hrel Hstep) as (Hret1 & Hrel1 & Hp1 & Hg1).
    intros Hexec. destruct (IH s1 Hret1 Hrel1 Hexec) as (? & ? & ? & ?).
    repeat split; [done|done|congruence|lia].
Qed.









End CollectorFacts.




(** C5. When the loop receives the cancellation (its [select] takes the
    case of [ctx.Done()]), it returns and its deferred [ticker.Stop()]
    has run: the ticker is released; that round publishes nothing.  From
    then on, whatever happens in the process, the loop stays returned, the
    ticker stays stopped, no case of the [select] can be taken again, the
    history of publications is what it was when the cancellation was
    received, and no goroutine is added to the scheduler pool. *)
Theorem cancellation_stops_publishing :
  forall (lib : Library) (c : Collector) (s : State),
    app.ready app.CaseDone s = true ->
    exists s1 : State,
      step lib c (Select app.CaseDone) s = Some s1
      /\ collector s1 = Returned
      /\ released s1
      /\ published s1 = published s
      /\ goroutines s1 = goroutines s
      /\ forall (acts : list Action) (s2 : State),
           exec lib c acts s1 = Some s2 ->
           collector s2 = Returned
           /\ released s2
           /\ published s2 = published s
           /\ (length (goroutines s2) <= length (goroutines s))%nat
           /\ forall sel : app.Case, step lib c (Select sel) s2 = None.
Proof.
  intros lib c s Hready. exists (app.Start_round c app.CaseDone s).2.
  split; [by apply step_done|]. rewrite Start_round_done. cbn [snd].
  assert (Hrel : released
                   (set_collector Returned
                      (set_ticker (fmap (fun t => {| period := period t;
                                                     next_fire := next_fire t;
                                                     C := C t; stopped := true |}))
                         (set_logs (fun es => es ++ [{| lvl := InfoLevel;
                                                        msg := "collector exit";
                                                        zfields := [] |}]) s)))).
  { intros t. cbn. destruct (ticker s); cbn; [|done]. by intros [= <-]. }
  split; [done|]. split; [done|]. split; [done|]. split; [done|].
  intros acts s2 Hexec.
  apply exec_after_return in Hexec as (Hret & Hrel2 & Hpub & Hlen); [|done|done].
  split; [done|]. split; [done|]. split; [done|]. split; [done|].
  intros sel. unfold step, app.ready. by rewrite Hret.
Qed.

(** Cancelled two seconds after the start, before any tick: the loop
    returns, and a tick due later publishes nothing. *)
Lemma cancellation_stops_publishing_witness :
  exists s1 : State,
    step (example.library true) example.collector (Select app.CaseDone) example.cancelled
    = Some s1
    /\ collector s1 = Returned
    /\ (forall s2 : State,
          exec (example.library true) example.collector [Elapse 5000000000] s1 = Some s2 ->
          published s2 = []
          /\ step (example.library true) example.collector (Select app.CaseTick) s2 = None).
Proof.
  destruct (cancellation_stops_publishing (example.library true) example.collector
              example.cancelled) as (s1 & Hstep & Hret & _ & _ & _ & Hafter).
  - reflexivity.
  - exists s1. split; [exact Hstep|]. split; [exact Hret|].
    intros s2 Hexec. destruct (Hafter _ _ Hexec) as (_ & _ & Hpub & _ & Hsel).
    split; [exact Hpub | apply Hsel].
Defined.

(* ===================================================================== *)
(** ** More on the event bus *)
(* ===================================================================== *)

Lemma apply_ops_pool {H : Type} (ops : list (bus.BusOp H)) (b : bus.EventBus H)
    (pool : list (bus.Goroutine H)) :
  (bus.apply_ops ops (b, pool)).2 = pool ++ deliveries (bus.subscribers b) ops.
Proof.
  unfold bus.apply_ops.
  revert b pool. induction ops as [|op ops IH]; intros b pool; simpl.
  - by rewrite app_nil_r.
  - destruct op as [fn|e]; simpl; rewrite IH; simpl.
    + done.
    + by rewrite Publish_spawns, <- app_assoc.
Qed.

Lemma deliveries_subscribes {H : Type} (subs hs : list H) :
  deliveries subs (bus.OpSubscribe <$> hs) = [].
Proof.
  revert subs. induction hs as [|h hs IH]; intros subs; [done|].
  rewrite fmap_cons. simpl. apply IH.
Qed.

Lemma deliveries_publishes {H : Type} (subs : list H) (es : list bus.DataCollectedEvent) :
  deliveries subs (bus.OpPublish <$> es)
  = concat (map (fun e => map (fun sub => bus.go sub e) subs) es).
Proof.
  induction es as [|e es IH]; [done|].
  rewrite fmap_cons. simpl. by rewrite IH.
Qed.

Lemma deliveries_app {H : Type} (subs : list H) (ops1 ops2 : list (bus.BusOp H)) :
  deliveries subs (ops1 ++ ops2)
  = deliveries subs ops1 ++ deliveries (subs ++ bus.subscribed ops1) ops2.
Proof.
  revert subs. induction ops1 as [|op ops1 IH]; intros subs; simpl.
  - by rewrite app_nil_r.
  - destruct op as [fn|e]; simpl; rewrite IH.
    + by rewrite <- app_assoc.
    + by rewrite <- app_assoc.
Qed.

(** X1. The goroutines a bus has spawned after any sequence of [Subscribe]
    and [Publish] calls: each publication, in call order, gives one call
    for each handler subscribed before it and none for a handler subscribed
    after it (a late subscriber gets no replay); calls spawned by an
    earlier part of the sequence are still there, unchanged, after a later
    part; and publishing a list of events to [n] handlers spawns the calls
    event by event, [n] for each. *)
Theorem publications_reach_earlier_subscribers_only :
  forall (H : Type) (b : bus.EventBus H) (pool : list (bus.Goroutine H)),
    (forall ops : list (bus.BusOp H),
        (bus.apply_ops ops (b, pool)).2 = pool ++ deliveries (bus.subscribers b) ops)
    /\ (forall (e : bus.DataCollectedEvent) (hs : list H),
          (bus.apply_ops (bus.OpPublish e :: (bus.OpSubscribe <$> hs)) (b, pool)).2
          = bus.Publish b e pool)
    /\ (forall ops1 ops2 : list (bus.BusOp H),
          (bus.apply_ops ops1 (b, pool)).2
            `prefix_of` (bus.apply_ops (ops1 ++ ops2) (b, pool)).2)
    /\ (forall es : list bus.DataCollectedEvent,
          (bus.apply_ops (bus.OpPublish <$> es) (b, pool)).2
          = pool ++ concat (map (fun e => map (fun sub => bus.go sub e) (bus.subscribers b)) es)
          /\ length (bus.apply_ops (bus.OpPublish <$> es) (b, pool)).2
             = (length pool + length es * length (bus.subscribers b))%nat).
Proof.
  intros H b pool. split; [|split; [|split]].
  - intros ops. apply apply_ops_pool.
  - intros e hs. rewrite apply_ops_pool, Publish_spawns. simpl.
    by rewrite deliveries_subscribes, app_nil_r.
  - intros ops1 ops2. rewrite !apply_ops_pool, deliveries_app, app_assoc.
    by apply prefix_app_r.
  - intros es. rewrite apply_ops_pool, deliveries_publishes. split; [done|].
    rewrite length_app. f_equal.
    induction es as [|e es IH]; [done|].
    simpl. rewrite length_app, length_map, IH. lia.
Qed.

Lemma filter_spawned_length {H : Type} `{EqDecision H} (subs : list H)
    (e : bus.DataCollectedEvent) (h : H) :
  length (filter (fun g => bus.go_fn g = h) (map (fun sub => bus.go sub e) subs))
  = length (filter (fun sub => sub = h) subs).
Proof.
  induction subs as [|sub subs IH]; [done|].
  simpl. rewrite !filter_cons. simpl.
  destruct (decide (sub = h)); simpl; by rewrite IH.
Qed.

(** X2. The bus keeps no set of handlers: a publication spawns, for each
    handler, as many calls as the number of times it stands in the
    registry, and [Subscribe] adds a handler again even when it is there
    already; a handler subscribed twice more is called twice more for
    every event. *)
Theorem subscribe_does_not_deduplicate :
  forall (H : Type) (Heq : EqDecision H) (b : bus.EventBus H)
         (e : bus.DataCollectedEvent) (h : H),
    length (filter (fun g => bus.go_fn g = h) (bus.Publish b e []))
    = length (filter (fun sub => sub = h) (bus.subscribers b))
    /\ length (filter (fun sub => sub = h)
                 (bus.subscribers (bus.Subscribe (bus.Subscribe b h) h)))
       = (2 + length (filter (fun sub => sub = h) (bus.subscribers b)))%nat
    /\ length (filter (fun g => bus.go_fn g = h)
                 (bus.Publish (bus.Subscribe (bus.Subscribe b h) h) e []))
       = (2 + length (filter (fun g => bus.go_fn g = h) (bus.Publish b e [])))%nat.
Proof.
  intros H Heq b e h.
  assert (Htwice : length (filter (fun sub => sub = h)
                             (bus.subscribers (bus.Subscribe (bus.Subscribe b h) h)))
                   = (2 + length (filter (fun sub => sub = h) (bus.subscribers b)))%nat).
  { simpl. rewrite !filter_app, !length_app, !filter_cons. simpl.
    destruct (decide (h = h)); [simpl; lia | done]. }
  rewrite !Publish_spawns, !app_nil_l, !filter_spawned_length.
  by rewrite Htwice.
Qed.

(* ===================================================================== *)
(** ** More on InfluxRepo *)
(* ===================================================================== *)

(** X3. What a delivery leaves behind tells how it went.  Either the
    subscriber returns, having written exactly one log entry: the success
    entry, and then the store client saw one write that returned no error;
    or the point-failure entry, and then no write was made; or the
    write-failure entry, and then the store client saw one write, which
    returned that error.  Or it panics on a nil batch, and then neither
    the log nor the store nor anything else has changed. *)
Theorem delivery_is_reported_in_the_log :
  forall (lib : Library) (repo : InfluxRepo) (db prec : string)
         (e : bus.DataCollectedEvent) (s : State),
    ((infra.subscriber lib repo db prec e s).1 = Ret tt
     /\ exists entry : LogEntry,
          logs (infra.subscriber lib repo db prec e s).2 = logs s ++ [entry]
          /\ ((entry = write_succeeded e
               /\ exists w : WriteCall,
                    store (infra.subscriber lib repo db prec e s).2 = store s ++ [w]
                    /\ wc_err w = None)
              \/ (exists err : error,
                     entry = point_failed err
                     /\ store (infra.subscriber lib repo db prec e s).2 = store s)
              \/ (exists (err : error) (w : WriteCall),
                     entry = write_failed err
                     /\ store (infra.subscriber lib repo db prec e s).2 = store s ++ [w]
                     /\ wc_err w = Some err)))
    \/ ((infra.subscriber lib repo db prec e s).1
        = Panic "invalid memory address or nil pointer dereference"
        /\ (infra.subscriber lib repo db prec e s).2 = s).
Proof.
  intros lib repo db prec e s.
  destruct (checked lib e s) as [err|] eqn:Hc.
  { left. rewrite (subscriber_point_error lib repo db prec e s err Hc). simpl.
    split; [done|]. eexists. split; [done|]. right. left. by exists err. }
  destruct (NewBatchPoints lib {| Database := db; Precision := prec |}).1 as [b0|] eqn:Hb.
  2:{ right. by rewrite (subscriber_nil_batch lib repo db prec e s Hc Hb). }
  destruct (Write lib (client repo) (AddPoint b0 (point_of e (clock s))) (clock s))
    as [err took] eqn:Hw.
  left. rewrite (subscriber_write lib repo db prec e s b0 err took Hc Hb Hw). simpl.
  split; [done|]. eexists. split; [done|].
  destruct err as [err|]; simpl.
  - right. right. eexists err, _. by split.
  - left. split; [done|]. eexists. by split.
Qed.

Lemma configured_other_key (s : State) (env : gmap string string) (k key dflt v : string) :
  k <> key ->
  configured (with_environ (<[k := v]> env) s) key dflt
  = configured (with_environ env s) key dflt.
Proof.
  intros Hne. unfold configured. simpl. by rewrite lookup_insert_ne.
Qed.

Lemma with_environ_same (s : State) : with_environ (environ s) s = s.
Proof. by destruct s. Qed.

(** X4. The constructor never looks at the precision: with any value of
    APP_INFLUX_PRECISION it ends as it does without it (the same exit, or
    the same repo returned), and a value that is not empty goes as it is
    into the subscriber it registers. *)
Theorem precision_is_not_validated :
  forall (lib : Library) (log : Logger) (s : State) (v : string),
    (infra.NewInfluxRepo lib log
       (with_environ (<["APP_INFLUX_PRECISION" := v]> (environ s)) s)).1
    = (infra.NewInfluxRepo lib log s).1
    /\ (v <> "" ->
        forall (repo : InfluxRepo) (s' : State),
          infra.NewInfluxRepo lib log
            (with_environ (<["APP_INFLUX_PRECISION" := v]> (environ s)) s)
          = (Ret repo, s') ->
          bus.subscribers (eb s')
          = bus.subscribers (eb s) ++ [InfluxSubscriber repo (database s) v]).
Proof.
  intros lib log s v.
  set (sv := with_environ (<["APP_INFLUX_PRECISION" := v]> (environ s)) s).
  assert (Hdb : database sv = database s).
  { unfold database, sv. rewrite configured_other_key by done.
    by rewrite with_environ_same. }
  assert (Htime : timeout_text sv = timeout_text s).
  { unfold timeout_text, sv. rewrite configured_other_key by done.
    by rewrite with_environ_same. }
  assert (Hconf : forall t, http_conf sv t = http_conf s t).
  { intros t. unfold http_conf, sv. rewrite !configured_other_key by done.
    by rewrite with_environ_same. }
  rewrite !NewInfluxRepo_cases, Hdb, Htime.
  destruct (decide (database s = "")); [done|].
  destruct (ParseDuration lib (timeout_text s)) as [timeout|err]; [|done].
  rewrite Hconf.
  destruct (NewHTTPClient lib (http_conf s timeout)) as [cl|err]; [|done].
  split; [done|]. intros Hv repo s' [= <- <-]. simpl. rewrite Hdb.
  do 3 f_equal. unfold precision, configured, sv. simpl.
  rewrite lookup_insert_eq. by destruct (decide (v = "")).
Qed.

(** With APP_INFLUX_PRECISION=bogus the consumer is constructed all the
    same, and its subscriber carries "bogus". *)
Lemma precision_is_not_validated_witness :
  bus.subscribers
    (eb (infra.NewInfluxRepo (example.library true) ZapLogger
           (with_environ (<["APP_INFLUX_PRECISION" := "bogus"]>
                            (environ (example.boot example.env_ok)))
              (example.boot example.env_ok))).2)
  = [] ++ [InfluxSubscriber example.repo "telemetry" "bogus"].
Proof.
  pose proof (precision_is_not_validated (example.library true) ZapLogger
                (example.boot example.env_ok) "bogus") as (_ & Hkeeps).
  apply (Hkeeps ltac:(discriminate) example.repo). reflexivity.
Defined.

Lemma configured_empty_absent (s : State) (k key dflt : string) :
  configured (with_environ (<[k := ""]> (environ s)) s) key dflt
  = configured (with_environ (delete k (environ s)) s) key dflt.
Proof.
  unfold configured. simpl. destruct (decide (k = key)) as [->|Hne].
  - rewrite lookup_insert_eq, lookup_delete_eq. by destruct (decide ("" = "")).
  - by rewrite lookup_insert_ne, lookup_delete_ne.
Qed.

(** X5. A variable set to the empty string counts as not set, for every
    variable the constructor reads and any other: the constructor ends the
    same way, with the same bus, log and lifecycle, whether the variable is
    empty or removed. *)
Theorem empty_variable_is_absent :
  forall (lib : Library) (log : Logger) (s : State) (k : string),
    (infra.NewInfluxRepo lib log (with_environ (<[k := ""]> (environ s)) s)).1
    = (infra.NewInfluxRepo lib log (with_environ (delete k (environ s)) s)).1
    /\ eb (infra.NewInfluxRepo lib log (with_environ (<[k := ""]> (environ s)) s)).2
       = eb (infra.NewInfluxRepo lib log (with_environ (delete k (environ s)) s)).2
    /\ logs (infra.NewInfluxRepo lib log (with_environ (<[k := ""]> (environ s)) s)).2
       = logs (infra.NewInfluxRepo lib log (with_environ (delete k (environ s)) s)).2
    /\ lifecycle (infra.NewInfluxRepo lib log (with_environ (<[k := ""]> (environ s)) s)).2
       = lifecycle (infra.NewInfluxRepo lib log (with_environ (delete k (environ s)) s)).2.
Proof.
  intros lib log s k. rewrite !NewInfluxRepo_cases.
  unfold started. unfold database, timeout_text, http_conf, precision.
  rewrite !configured_empty_absent.
  destruct (decide (configured _ "APP_INFLUX_DATABASE" "" = "")); [done|].
  destruct (ParseDuration lib _) as [timeout|err]; [|done].
  destruct (NewHTTPClient lib _) as [cl|err]; [|done].
  done.
Qed.

(** X6. The stop hook of the repo closes the client and nothing more: the
    scheduler pool is as before, so a delivery spawned before the stop is
    still there, and when it runs afterwards it still calls [Write] on the
    repo's client, now closed.  The hook does not wait for deliveries and
    does not withdraw them. *)
Theorem stop_hook_does_not_drain :
  forall (lib : Library) (c : Collector) (hooked repo : InfluxRepo) (db prec : string)
         (e : bus.DataCollectedEvent) (s : State) (i : nat) (b0 : BatchPoints),
    (infra.repo_OnStop hooked s).1 = Ret tt
    /\ closed (infra.repo_OnStop hooked s).2 = true
    /\ goroutines (infra.repo_OnStop hooked s).2 = goroutines s
    /\ store (infra.repo_OnStop hooked s).2 = store s
    /\ eb (infra.repo_OnStop hooked s).2 = eb s
    /\ (goroutines s !! i = Some (bus.go (InfluxSubscriber repo db prec) e) ->
        (NewBatchPoints lib {| Database := db; Precision := prec |}).1 = Some b0 ->
        checked lib e s = None ->
        exists (s' : State) (w : WriteCall),
          step lib c (RunGoroutine i) (infra.repo_OnStop hooked s).2 = Some s'
          /\ closed s' = true
          /\ store s' = store s ++ [w]
          /\ wc_client w = client repo
          /\ wc_batch w = AddPoint b0 (point_of e (clock s))).
Proof.
  intros lib c hooked repo db prec e s i b0. repeat split.
  intros Hg Hb Hc.
  destruct (Write lib (client repo) (AddPoint b0 (point_of e (clock s))) (clock s))
    as [err took] eqn:Hw.
  pose proof (subscriber_write lib repo db prec e
                (set_goroutines (delete i) (set_closed true s)) b0 err took Hc Hb Hw)
    as Hcall.
  eexists _, _. split.
  - apply (step_run_returns lib c i (set_closed true s) _ _ Hg). exact Hcall.
  - by simpl.
Qed.

(** The consumer is stopped while the collector's event waits to be
    delivered: the delivery still runs and writes. *)
Lemma stop_hook_does_not_drain_witness :
  exists (s' : State) (w : WriteCall),
    step (example.library true) example.collector (RunGoroutine 0)
      (infra.repo_OnStop example.repo example.delivered).2 = Some s'
    /\ closed s' = true
    /\ store s' = [] ++ [w]
    /\ wc_client w = client example.repo
    /\ wc_batch w = AddPoint example.batch (point_of app.sample (clock example.delivered)).
Proof.
  pose proof (stop_hook_does_not_drain (example.library true) example.collector
                example.repo example.repo "telemetry" "s" app.sample example.delivered
                0 example.batch) as (_ & _ & _ & _ & _ & Hruns).
  apply Hruns; reflexivity.
Defined.

(* ===================================================================== *)
(** ** More on the collector's loop *)
(* ===================================================================== *)

Section LoopFacts.
Variable lib : Library.
Variable c : Collector.

Implicit Types (s : State) (a : Action) (acts : list Action).

(** What one step does to the context and to the loop: only [Cancel]
    touches the context, and only the case of [ctx.Done()], which needs the
    context cancelled, ends the loop. *)
Lemma step_ctx_collector a s s' :
  step lib c a s = Some s' ->
  (ctx_done s' = ctx_done s \/ (a = Cancel /\ ctx_done s' = true))
  /\ (collector s' = collector s
      \/ (a = Select app.CaseDone /\ ctx_done s = true /\ collector s' = Returned)).
Proof.
  destruct a as [d| |sel|i].
  - intros [= <-]. by split; left.
  - intros [= <-]. split; [by right | by left].
  - intros (Hready & ->)%step_select. destruct sel.
    + rewrite Start_round_done. split; [by left|]. right.
      unfold app.ready in Hready. by destruct (collector s).
    + rewrite Start_round_tick. by split; left.
  - intros (g & _ & Hcall)%step_run.
    pose proof (call_frame lib (bus.go_fn g) (bus.go_arg g) (set_goroutines (delete i) s))
      as Hf.
    rewrite Hcall in Hf. simpl in Hf.
    destruct Hf as (_ & _ & _ & _ & Hc & _ & Hd & _). split; by left.
Qed.

Lemma exec_ctx_done acts s s' :
  ctx_done s = true -> exec lib c acts s = Some s' -> ctx_done s' = true.
Proof.
  revert s. induction acts as [|a acts IH]; intros s Hd; simpl.
  - by intros [= <-].
  - destruct (step lib c a s) as [s1|] eqn:Hstep; [|done].
    apply IH. destruct (step_ctx_collector a s s1 Hstep) as ([->|[_ ->]] & _); done.
Qed.

Lemma exec_exit_needs_cancel acts s s' :
  (collector s = Returned -> ctx_done s = true) ->
  exec lib c acts s = Some s' ->
  collector s' = Returned -> ctx_done s' = true.
Proof.
  revert s. induction acts as [|a acts IH]; intros s Hinv; simpl.
  - by intros [= <-].
  - destruct (step lib c a s) as [s1|] eqn:Hstep; [|done].
    apply IH. destruct (step_ctx_collector a s s1 Hstep) as (Hd & Hc).
    intros Hret. destruct Hd as [->|[_ ->]]; [|done].
    destruct Hc as [Hsame|(_ & Hdone & _)]; [|done].
    apply Hinv. by rewrite <- Hsame.
Qed.

Lemma exec_uncancelled acts s s' :
  Forall (fun a => a <> Cancel) acts ->
  ctx_done s = false -> collector s = InSelect ->
  exec lib c acts s = Some s' ->
  ctx_done s' = false /\ collector s' = InSelect.
Proof.
  revert s. induction acts as [|a acts IH]; intros s Hacts Hd Hsel; simpl.
  - by intros [= <-].
  - destruct (step lib c a s) as [s1|] eqn:Hstep; [|done].
    apply Forall_cons in Hacts as (Ha & Hacts).
    destruct (step_ctx_collector a s s1 Hstep) as (Hd1 & Hc1).
    apply IH; [done| |].
    + destruct Hd1 as [->|[-> _]]; done.
    + destruct Hc1 as [->|(_ & Hdone & _)]; [done|congruence].
Qed.

Lemma step_within_rate (t0 : Z) pub0 a s s' :
  within_rate t0 pub0 s -> step lib c a s = Some s' -> within_rate t0 pub0 s'.
Proof.
  intros (evs & t & Hpub & Ht & Hp & Hnext & Hcount). destruct a as [d| |sel|i].
  - intros [= <-]. exists evs, (app.fire (clock s + Z.of_N d) t).
    unfold elapse. cbn [published ticker clock set_ticker set_clock].
    rewrite Ht. cbn [fmap option_fmap option_map].
    split; [done|]. split; [done|]. unfold app.fire.
    destruct (stopped t); [repeat split; [done|lia|done]|].
    destruct (decide (next_fire t <= clock s + Z.of_N d)) as [Hdue|Hnot];
      cbn [period next_fire C]; [|repeat split; [done|lia|done]].
    rewrite Hp. unfold app.Second in *.
    change (3 * 1000000000) with 3000000000 in *.
    pose proof (Z.mul_div_le (clock s + Z.of_N d - next_fire t) 3000000000 ltac:(lia)).
    assert (0 <= (clock s + Z.of_N d - next_fire t) `div` 3000000000)
      by (apply Z.div_pos; lia).
    repeat split; [lia|].
    destruct (C t); lia.
  - intros [= <-]. by exists evs, t.
  - intros (Hready & ->)%step_select. destruct sel.
    + rewrite Start_round_done.
      exists evs, {| period := period t; next_fire := next_fire t; C := C t;
                     stopped := true |}.
      cbn [snd published ticker clock set_collector set_ticker set_logs].
      rewrite Ht. by cbn.
    + rewrite Start_round_tick.
      unfold app.ready in Hready. rewrite Ht in Hready.
      destruct (collector s); try done. simpl in Hready.
      exists (evs ++ [(clock s, app.sample)]),
        {| period := period t; next_fire := next_fire t; C := false;
           stopped := stopped t |}.
      cbn [snd published ticker clock set_published set_goroutines set_ticker set_logs].
      rewrite Ht, Hpub, <- app_assoc. cbn [fmap option_fmap option_map period next_fire C].
      repeat split; [done|done|].
      rewrite Hready in Hcount. rewrite length_app. simpl. lia.
  - intros (g & _ & Hcall)%step_run.
    pose proof (call_frame lib (bus.go_fn g) (bus.go_arg g) (set_goroutines (delete i) s))
      as Hf.
    rewrite Hcall in Hf. simpl in Hf.
    destruct Hf as (_ & _ & _ & Hp' & _ & Ht' & _ & _ & _ & Hclock).
    exists evs, t. rewrite Hp', Ht'. repeat split; [done..|lia|done].
Qed.

Lemma exec_within_rate (t0 : Z) pub0 acts s s' :
  within_rate t0 pub0 s -> exec lib c acts s = Some s' -> within_rate t0 pub0 s'.
Proof.
  revert s. induction acts as [|a acts IH]; intros s Hs; simpl.
  - by intros [= <-].
  - destruct (step lib c a s) as [s1|] eqn:Hstep; [|done].
    apply IH. by eapply step_within_rate.
Qed.

Lemma Start_enter_within_rate s :
  within_rate (clock s) (published s) (app.Start_enter s).2.
Proof.
  rewrite Start_enter_spec. exists [], (fresh_ticker (clock s)). cbn.
  rewrite app_nil_r. unfold app.Second. repeat split; lia.
Qed.

End LoopFacts.

(** X7. The loop of [Collector.Start] ends in one way only.  In any run
    after it was entered: if the loop has returned, the context was
    cancelled; a cancelled context stays cancelled; and as long as no
    cancellation happens the loop is still waiting in its [select],
    whatever else happened.  The collector's own stop hook only logs: it
    leaves the loop, the ticker and the context as they are. *)
Theorem loop_returns_only_after_cancellation :
  forall (lib : Library) (c : Collector) (s : State) (acts : list Action) (s' : State),
    exec lib c acts (app.Start_enter s).2 = Some s' ->
    (collector s' = Returned -> ctx_done s' = true)
    /\ (ctx_done s = true -> ctx_done s' = true)
    /\ (ctx_done s = false -> Forall (fun a => a <> Cancel) acts ->
        collector s' = InSelect /\ ctx_done s' = false)
    /\ collector (app.collector_OnStop c s').2 = collector s'
    /\ ticker (app.collector_OnStop c s').2 = ticker s'
    /\ ctx_done (app.collector_OnStop c s').2 = ctx_done s'.
Proof.
  intros lib c s acts s' Hexec. rewrite Start_enter_spec in Hexec.
  split; [|split; [|split]].
  - intros Hret. eapply exec_exit_needs_cancel; [|exact Hexec|exact Hret]. done.
  - intros Hd. eapply exec_ctx_done; [|exact Hexec]. exact Hd.
  - intros Hd Hacts.
    eapply exec_uncancelled in Hexec as (? & ?); [done|exact Hacts|exact Hd|done].
  - done.
Qed.

(** A tick is handled, its event delivered, more time passes: without a
    cancellation the loop is still there. *)
Lemma loop_returns_only_after_cancellation_witness :
  collector
    (default example.running
       (exec (example.library true) example.collector
          [Elapse 3000000000; Select app.CaseTick; RunGoroutine 0; Elapse 7000000000]
          example.running))
  = InSelect.
Proof.
  destruct (loop_returns_only_after_cancellation (example.library true)
              example.collector example.constructed
              [Elapse 3000000000; Select app.CaseTick; RunGoroutine 0; Elapse 7000000000]
              (default example.running
                 (exec (example.library true) example.collector
                    [Elapse 3000000000; Select app.CaseTick; RunGoroutine 0;
                     Elapse 7000000000]
                    example.running)))
    as (_ & _ & Hstill & _).
  - vm_compute. reflexivity.
  - apply Hstill; [reflexivity | repeat constructor; discriminate].
Defined.

(** X8. Cancellation is cooperative.  When a tick waits in the ticker's
    channel at the moment the context is cancelled, both cases of the
    [select] can be taken: if it takes the tick, one more event is
    published after the cancellation and the loop goes on waiting; if it
    takes the cancellation, nothing is published and the loop returns. *)
Theorem tick_may_be_taken_after_cancel :
  forall (lib : Library) (c : Collector) (s : State),
    app.ready app.CaseTick s = true ->
    (exists s1 : State,
        exec lib c [Cancel; Select app.CaseTick] s = Some s1
        /\ ctx_done s1 = true
        /\ published s1 = published s ++ [(clock s, app.sample)]
        /\ collector s1 = InSelect)
    /\ (exists s2 : State,
          exec lib c [Cancel; Select app.CaseDone] s = Some s2
          /\ published s2 = published s
          /\ collector s2 = Returned).
Proof.
  intros lib c s Hready.
  assert (Hsel : collector s = InSelect).
  { unfold app.ready in Hready. by destruct (collector s). }
  split.
  - exists (app.Start_round c app.CaseTick (set_ctx_done true s)).2. split.
    + cbn [exec].
      change (step lib c Cancel s) with (Some (set_ctx_done true s)). cbv beta iota.
      by rewrite (step_tick lib c (set_ctx_done true s) Hready).
    + rewrite Start_round_tick. by cbn.
  - exists (app.Start_round c app.CaseDone (set_ctx_done true s)).2. split.
    + cbn [exec].
      change (step lib c Cancel s) with (Some (set_ctx_done true s)). cbv beta iota.
      rewrite (step_done lib c (set_ctx_done true s)); [done|].
      unfold app.ready. cbn. by rewrite Hsel.
    + rewrite Start_round_done. by cbn.
Qed.

(** With the tick of the first interval waiting, the context is cancelled
    and the [select] still takes the tick: the event is published at 3 s. *)
Lemma tick_may_be_taken_after_cancel_witness :
  exists s1 : State,
    exec (example.library true) example.collector [Cancel; Select app.CaseTick]
      example.ticked = Some s1
    /\ ctx_done s1 = true
    /\ published s1 = [] ++ [(3000000000, app.sample)].
Proof.
  destruct (tick_may_be_taken_after_cancel (example.library true) example.collector
              example.ticked) as ((s1 & Hexec & Hd & Hpub & _) & _).
  - reflexivity.
  - exists s1. split; [exact Hexec|]. split; [exact Hd | exact Hpub].
Defined.

(** X9. The loop never publishes faster than its ticker.  In any run after
    [Collector.Start] was entered, however the loop and the deliveries
    are scheduled, the number of events published since, times 3 seconds,
    is at most the time that has passed: ticks that fire while one is
    still waiting are dropped, not queued.  And a tick, once received, is
    gone: the tick case cannot be taken again until the ticker fires. *)
Theorem publications_keep_within_rate :
  forall (lib : Library) (c : Collector) (s : State),
    (forall (acts : list Action) (s' : State),
        exec lib c acts (app.Start_enter s).2 = Some s' ->
        exists evs : list (Z * bus.DataCollectedEvent),
          published s' = published s ++ evs
          /\ 3 * app.Second * Z.of_nat (length evs) <= clock s' - clock s)
    /\ app.ready app.CaseTick (app.Start_round c app.CaseTick s).2 = false.
Proof.
  intros lib c s. split.
  - intros acts s' Hexec.
    destruct (exec_within_rate lib c (clock s) (published s) acts _ s'
                (Start_enter_within_rate s) Hexec)
      as (evs & t & Hpub & _ & _ & Hnext & Hcount).
    exists evs. split; [done|]. unfold app.Second in *. destruct (C t); lia.
  - rewrite Start_round_tick. unfold app.ready. cbn.
    destruct (collector s); try done. by destruct (ticker s).
Qed.

(** Ten seconds pass before the loop runs: three ticks have fired, one is
    received, and no second one is there. *)
Lemma publications_keep_within_rate_witness :
  exists evs : list (Z * bus.DataCollectedEvent),
    published
      (default example.running
         (exec (example.library true) example.collector
            [Elapse 10000000000; Select app.CaseTick] example.running))
    = [] ++ evs
    /\ 3 * app.Second * Z.of_nat (length evs) <= 10000000000 - 0
    /\ exec (example.library true) example.collector
         [Elapse 10000000000; Select app.CaseTick; Select app.CaseTick] example.running
       = None.
Proof.
  pose proof (publications_keep_within_rate (example.library true) example.collector
                example.constructed) as (Hrate & _).
  destruct (Hrate [Elapse 10000000000; Select app.CaseTick]
              (default example.running
                 (exec (example.library true) example.collector
                    [Elapse 10000000000; Select app.CaseTick] example.running)))
    as (evs & Hpub & Hlen).
  - vm_compute. reflexivity.
  - exists evs. split; [exact Hpub|]. split; [exact Hlen|]. vm_compute. reflexivity.
Defined.

(** X10. From tick to store.  In a process whose bus has the consumer's
    subscriber as its only handler and whose scheduler pool is empty, when
    the loop receives a tick and the spawned delivery is run (the library
    handing back a batch and accepting the point): the event with sourceID
    "A1" and temp = 23.5 is published once, the store client receives
    exactly one write, on the repo's client, with the point of that event
    stamped with the time of the tick, and the pool is empty again. *)
Theorem tick_ends_as_one_write :
  forall (lib : Library) (c : Collector) (repo : InfluxRepo) (db prec : string)
         (s : State) (b0 : BatchPoints),
    bus.subscribers (eb s) = [InfluxSubscriber repo db prec] ->
    goroutines s = [] ->
    app.ready app.CaseTick s = true ->
    (NewBatchPoints lib {| Database := db; Precision := prec |}).1 = Some b0 ->
    checked lib app.sample s = None ->
    exists (s' : State) (w : WriteCall),
      exec lib c [Select app.CaseTick; RunGoroutine 0] s = Some s'
      /\ published s' = published s ++ [(clock s, app.sample)]
      /\ store s' = store s ++ [w]
      /\ wc_client w = client repo
      /\ wc_batch w = AddPoint b0 (point_of app.sample (clock s))
      /\ goroutines s' = [].
Proof.
  intros lib c repo db prec s b0 Hsubs Hpool Hready Hb Hc.
  set (s1 := (app.Start_round c app.CaseTick s).2).
  assert (Hg : goroutines s1 !! 0%nat
               = Some (bus.go (InfluxSubscriber repo db prec) app.sample)).
  { unfold s1. rewrite Start_round_tick. cbn.
    by rewrite Publish_spawns, Hpool, Hsubs. }
  assert (Hc1 : checked lib app.sample (set_goroutines (delete 0%nat) s1) = None).
  { unfold s1. rewrite Start_round_tick. exact Hc. }
  destruct (Write lib (client repo)
              (AddPoint b0 (point_of app.sample (clock (set_goroutines (delete 0%nat) s1))))
              (clock (set_goroutines (delete 0%nat) s1))) as [err took] eqn:Hw.
  pose proof (subscriber_write lib repo db prec app.sample
                (set_goroutines (delete 0%nat) s1) b0 err took Hc1 Hb Hw) as Hcall.
  eexists _, _. split.
  - cbn [exec]. rewrite (step_tick lib c s Hready). fold s1.
    rewrite (step_run_returns lib c 0 s1 _ _ Hg Hcall). reflexivity.
  - unfold s1. rewrite Start_round_tick. cbn.
    rewrite Publish_spawns, Hpool, Hsubs. by cbn.
Qed.

(** The process of the example, one interval after the start. *)
Lemma tick_ends_as_one_write_witness :
  exists (s' : State) (w : WriteCall),
    exec (example.library true) example.collector [Select app.CaseTick; RunGoroutine 0]
      example.ticked = Some s'
    /\ published s' = [] ++ [(3000000000, app.sample)]
    /\ store s' = [] ++ [w]
    /\ wc_client w = client example.repo
    /\ wc_batch w = AddPoint example.batch (point_of app.sample 3000000000)
    /\ goroutines s' = [].
Proof.
  apply (tick_ends_as_one_write (example.library true) example.collector example.repo
           "telemetry" "s" example.ticked example.batch); reflexivity.
Defined.

(* ===================================================================== *)
(** ** The HTTP server *)
(* ===================================================================== *)

Lemma getenv_or_default (s : State) (key dflt : string) :
  (if decide (default "" (environ s !! key) = "") then dflt
   else default "" (environ s !! key))
  = configured s key dflt.
Proof.
  unfold configured. destruct (environ s !! key) as [v|]; simpl; [done|].
  by destruct (decide ("" = "")).
Qed.

(** X11. The port of the HTTP server is APP_PORT, or 8080 when the
    variable is absent or empty.  A text [strconv.Atoi] refuses is fatal:
    one entry "Invalid port value, unable to convert to int" at the fatal
    level, exit status 1.  Any integer it accepts becomes the port as it
    is: there is no check that it lies in the range of TCP ports.  On
    success the process is unchanged and the server has its three routes
    and no [http.Server] yet. *)
Theorem port_is_taken_without_range_check :
  forall (Atoi : string -> Z + error) (log : Logger) (s : State),
    (forall err : error,
        Atoi (configured s "APP_PORT" "8080") = inr err ->
        server.NewHTTPServer Atoi log s
        = (Exit 1,
           set_logs (fun es => es ++ [{| lvl := FatalLevel;
                                         msg := "Invalid port value, unable to convert to int";
                                         zfields := [zap_Error err] |}]) s))
    /\ (forall n : Z,
          Atoi (configured s "APP_PORT" "8080") = inl n ->
          server.NewHTTPServer Atoi log s
          = (Ret {| server.log := log; server.router := server.routes;
                    server.srv := None; server.port := n |}, s))
    /\ (environ s !! "APP_PORT" = None -> configured s "APP_PORT" "8080" = "8080")
    /\ (environ s !! "APP_PORT" = Some "" -> configured s "APP_PORT" "8080" = "8080").
Proof.
  intros Atoi log s.
  assert (Hnew : server.NewHTTPServer Atoi log s
                 = match Atoi (configured s "APP_PORT" "8080") with
                   | inr err =>
                       Fatal log "Invalid port value, unable to convert to int"
                         [zap_Error err] s
                   | inl n =>
                       (Ret {| server.log := log; server.router := server.routes;
                               server.srv := None; server.port := n |}, s)
                   end).
  { unfold server.NewHTTPServer, mbind, M_bind, Getenv, gets. simpl.
    rewrite getenv_or_default. by destruct (Atoi _). }
  rewrite Hnew. repeat apply conj.
  - by intros err ->.
  - by intros n ->.
  - unfold configured. by intros ->.
  - unfold configured. by intros ->.
Qed.

(** APP_PORT=70000 and APP_PORT=-1 are taken as they are; APP_PORT=http is
    fatal; without APP_PORT the port is 8080. *)
Lemma port_is_taken_without_range_check_witness :
  (server.NewHTTPServer example.Atoi ZapLogger
     (example.boot {[ "APP_PORT" := "70000" ]})).1
  = Ret {| server.log := ZapLogger; server.router := server.routes;
           server.srv := None; server.port := 70000 |}
  /\ (server.NewHTTPServer example.Atoi ZapLogger
        (example.boot {[ "APP_PORT" := "-1" ]})).1
     = Ret {| server.log := ZapLogger; server.router := server.routes;
              server.srv := None; server.port := -1 |}
  /\ (server.NewHTTPServer example.Atoi ZapLogger
        (example.boot {[ "APP_PORT" := "http" ]})).1 = Exit 1
  /\ server.NewHTTPServer example.Atoi ZapLogger (example.boot ∅)
     = (Ret example.http_server, example.boot ∅).
Proof.
  pose proof (port_is_taken_without_range_check example.Atoi ZapLogger
                (example.boot {[ "APP_PORT" := "70000" ]})) as (_ & Hbig & _).
  pose proof (port_is_taken_without_range_check example.Atoi ZapLogger
                (example.boot {[ "APP_PORT" := "-1" ]})) as (_ & Hneg & _).
  pose proof (port_is_taken_without_range_check example.Atoi ZapLogger
                (example.boot {[ "APP_PORT" := "http" ]})) as (Hbad & _).
  pose proof (port_is_taken_without_range_check example.Atoi ZapLogger
                (example.boot ∅)) as (_ & Hdefault & _).
  repeat apply conj.
  - rewrite (Hbig 70000); reflexivity.
  - rewrite (Hneg (-1)); reflexivity.
  - rewrite (Hbad "strconv.Atoi: parsing http: invalid syntax"); reflexivity.
  - apply (Hdefault 8080). reflexivity.
Defined.

(** X12. The three handlers only acknowledge.  On a fresh writer the
    health probe answers 200 "ok" and the ping 200 with its pong body, and
    neither changes anything in the process; the control endpoint answers
    202 with its queued body and adds one log entry with the first value of
    "action" and of "kw10" as text (empty when missing; "kw10" is not read
    as a number).  For every handler the answer is the same whatever the
    request, and the bus, the scheduler pool, the store, the publications,
    the collector's loop, its ticker and its context are untouched: a
    control command never reaches the pipeline. *)
Theorem handlers_only_acknowledge :
  forall (sv : server.Server) (r : server.Request) (s : State),
    server.handleHealth sv server.new_response r s
    = (Ret {| server.status := Some 200; server.body := "ok" |}, s)
    /\ server.handlePing sv server.new_response r s
       = (Ret {| server.status := Some 200; server.body := server.pong_body |}, s)
    /\ server.handleControl sv server.new_response r s
       = (Ret {| server.status := Some 202; server.body := server.queued_body |},
          set_logs (fun es => es ++ [{| lvl := InfoLevel;
                                        msg := "control request received";
                                        zfields :=
                                          [("action", server.Get (server.req_query r) "action");
                                           ("kw10", server.Get (server.req_query r) "kw10")] |}])
            s)
    /\ (forall (h : server.Handler) (r' : server.Request),
          (server.serve sv h server.new_response r s).1
          = (server.serve sv h server.new_response r' s).1)
    /\ (forall h : server.Handler,
          eb (server.serve sv h server.new_response r s).2 = eb s
          /\ goroutines (server.serve sv h server.new_response r s).2 = goroutines s
          /\ store (server.serve sv h server.new_response r s).2 = store s
          /\ published (server.serve sv h server.new_response r s).2 = published s
          /\ collector (server.serve sv h server.new_response r s).2 = collector s
          /\ ticker (server.serve sv h server.new_response r s).2 = ticker s
          /\ ctx_done (server.serve sv h server.new_response r s).2 = ctx_done s)
    /\ (server.req_query r !! "kw10" = None ->
        server.Get (server.req_query r) "kw10" = "").
Proof.
  intros sv r s. repeat apply conj; try reflexivity.
  - intros [] r'; reflexivity.
  - intros []; repeat split.
  - unfold server.Get. by intros ->.
Qed.

(** A control request whose power is not a number and whose action has two
    values is acknowledged like any other; the first values are logged. *)
Lemma handlers_only_acknowledge_witness :
  server.handleControl example.http_server server.new_response example.control_request
    example.delivered
  = (Ret {| server.status := Some 202; server.body := server.queued_body |},
     set_logs (fun es => es ++ [{| lvl := InfoLevel;
                                   msg := "control request received";
                                   zfields := [("action", "charge"); ("kw10", "a lot")] |}])
       example.delivered)
  /\ server.Get (server.req_query example.bare_request) "kw10" = "".
Proof.
  pose proof (handlers_only_acknowledge example.http_server example.control_request
                example.delivered) as (_ & _ & Hcontrol & _).
  pose proof (handlers_only_acknowledge example.http_server example.bare_request
                example.delivered) as (_ & _ & _ & _ & _ & Hmissing).
  split; [exact Hcontrol | apply Hmissing; reflexivity].
Defined.

(** X13. Starting the server cannot fail and decides the address from the
    port alone.  [OnStart] always returns nil; it sets up the
    [http.Server] for the address ":" followed by the port in decimal,
    with the server's router as handler and timeouts of 5, 10, 10 and 60
    seconds, and leaves port, router and logger as they were.  Servers with
    different ports get different addresses. *)
Theorem start_sets_address_from_port :
  forall sv : server.Server,
    (server.OnStart sv).2 = None
    /\ (server.OnStart sv).1.2 = ":" +:+ pretty (server.port sv)
    /\ server.srv (server.OnStart sv).1.1
       = Some {| server.srv_Addr := ":" +:+ pretty (server.port sv);
                 server.srv_Handler := server.router sv;
                 server.ReadHeaderTimeout := 5000000000;
                 server.ReadTimeout := 10000000000;
                 server.WriteTimeout := 10000000000;
                 server.IdleTimeout := 60000000000 |}
    /\ server.port (server.OnStart sv).1.1 = server.port sv
    /\ server.router (server.OnStart sv).1.1 = server.router sv
    /\ server.log (server.OnStart sv).1.1 = server.log sv
    /\ (forall sv' : server.Server,
          server.port sv <> server.port sv' ->
          (server.OnStart sv).1.2 <> (server.OnStart sv').1.2).
Proof.
  intros sv. repeat apply conj; try reflexivity.
  intros sv' Hne Haddr. apply Hne. simpl in Haddr.
  injection Haddr as Haddr. by apply (inj pretty).
Qed.

(** The server for port 8080 listens on ":8080", not on the address of a
    server for port 9090. *)
Lemma start_sets_address_from_port_witness :
  (server.OnStart example.http_server).1.2 = ":8080"
  /\ (server.OnStart example.http_server).1.2
     <> (server.OnStart {| server.log := ZapLogger; server.router := server.routes;
                           server.srv := None; server.port := 9090 |}).1.2.
Proof.
  pose proof (start_sets_address_from_port example.http_server)
    as (_ & Haddr & _ & _ & _ & _ & Hdiff).
  split.
  - rewrite Haddr. reflexivity.
  - apply Hdiff. discriminate.
Defined.


(* ===================================================================== *)
(** ** Deliveries side by side *)
(* ===================================================================== *)

(** X15. A delivery that returns, with or without a logged error, takes
    only itself out of the scheduler pool: the deliveries before it and
    after it are still pending, in their order, whatever happened to the
    write.  A delivery that panics on a nil batch is different: the
    process ends with it, so the deliveries still pending never run. *)
Theorem delivery_leaves_the_others_pending :
  forall (lib : Library) (c : Collector) (i : nat) (s : State),
    (forall s' : State,
        step lib c (RunGoroutine i) s = Some s' ->
        goroutines s' = delete i (goroutines s)
        /\ (forall j : nat, (j < i)%nat -> goroutines s' !! j = goroutines s !! j)
        /\ (forall j : nat, (i <= j)%nat -> goroutines s' !! j = goroutines s !! S j))
    /\ (forall (repo : InfluxRepo) (db prec : string) (e : bus.DataCollectedEvent)
               (acts : list Action),
          goroutines s !! i = Some (bus.go (InfluxSubscriber repo db prec) e) ->
          checked lib e s = None ->
          (NewBatchPoints lib {| Database := db; Precision := prec |}).1 = None ->
          exec lib c (RunGoroutine i :: acts) s = None).
Proof.
  intros lib c i s. split.
  - intros s' (g & _ & Hcall)%step_run.
    pose proof (call_frame lib (bus.go_fn g) (bus.go_arg g) (set_goroutines (delete i) s))
      as Hf.
    rewrite Hcall in Hf. simpl in Hf. destruct Hf as (_ & Hg & _).
    rewrite Hg. split; [done|]. split.
    + intros j Hj. by apply list_lookup_delete_lt.
    + intros j Hj. by apply list_lookup_delete_ge.
  - intros repo db prec e acts Hg Hc Hb. cbn [exec]. unfold step. rewrite Hg. simpl.
    by rewrite (subscriber_nil_batch lib repo db prec e
                  (set_goroutines (delete i) s) Hc Hb).
Qed.

(** Of two pending deliveries, running the first leaves the second; with
    the precision "bogus", running the first ends the process before the
    second can run. *)
Lemma delivery_leaves_the_others_pending_witness :
  goroutines
    (default example.two_pending
       (step (example.library true) example.collector (RunGoroutine 0)
          example.two_pending))
  = delete 0%nat (goroutines example.two_pending)
  /\ exec (example.library true) example.collector [RunGoroutine 0; RunGoroutine 0]
       example.two_doomed = None.
Proof.
  pose proof (delivery_leaves_the_others_pending (example.library true)
                example.collector 0 example.two_pending) as (Hleft & _).
  pose proof (delivery_leaves_the_others_pending (example.library true)
                example.collector 0 example.two_doomed) as (_ & Hdies).
  split.
  - apply Hleft. vm_compute. reflexivity.
  - apply (Hdies example.repo "telemetry" "bogus" app.sample [RunGoroutine 0]);
      reflexivity.
Defined.
